(** * hwcomposer.cpp: the layer planner, the blit engine and the executor

    A shallow embedding of [src/hwcomposer.cpp] (the Xilinx Zynq hardware
    composer HAL module) and the properties of its specification.

    The target is a 32-bit ARM (ILP32): [int], [size_t] and
    [unsigned long] are 32 bits wide, and one pixel is one
    [unsigned long], four bytes.  Machine integers are values of [Z]
    with the wrap-around written out. *)

From Stdlib Require Import ZArith Lia List Bool String.
From stdpp Require Import base numbers list list_numbers.

Local Open Scope Z_scope.

(** ** Machine integers *)

(** Conversion to [size_t] (or any 32-bit unsigned type). *)
Definition to_size_t (z : Z) : Z := z mod 2 ^ 32.

(** Two's complement wrap-around to [int]. *)
Definition to_int (z : Z) : Z := (z + 2 ^ 31) mod 2 ^ 32 - 2 ^ 31.

Definition is_int (z : Z) : Prop := - 2 ^ 31 <= z < 2 ^ 31.

Definition int_add (a b : Z) : Z := to_int (a + b).
Definition int_sub (a b : Z) : Z := to_int (a - b).
Definition size_add (a b : Z) : Z := to_size_t (a + b).
Definition size_mul (a b : Z) : Z := to_size_t (a * b).

(** ** Constants of the Android headers

    [hardware/hwcomposer_defs.h] and [errno.h] are not part of the
    source tree; the values are those of the platform headers. *)

Definition HWC_FRAMEBUFFER : Z := 0.
Definition HWC_OVERLAY : Z := 1.
Definition HWC_GEOMETRY_CHANGED : Z := 1.
Definition HWC_EGL_ERROR : Z := -1.
Definition EINVAL : Z := 22.
Definition HWC_HARDWARE_COMPOSER : string := "composer".

(** ** Data model *)

(** [private_handle_t] of [gralloc_priv.h]: the fields the composer
    reads.  [hnd_base] is the address the buffer is mapped at; it
    identifies the buffer. *)
Record private_handle_t := {
  hnd_fd : Z;
  hnd_size : Z;
  hnd_base : Z;
  hnd_stride : Z
}.

Record hwc_rect_t := {
  left : Z;
  top : Z;
  right : Z;
  bottom : Z
}.

(** [handle] is a pointer that may be null. *)
Record hwc_layer_t := {
  compositionType : Z;
  hints : Z;
  flags : Z;
  handle : option private_handle_t;
  transform : Z;
  blending : Z;
  sourceCrop : hwc_rect_t;
  displayFrame : hwc_rect_t
}.

(** [numHwLayers] is the length of [hwLayers]. *)
Record hwc_layer_list_t := {
  list_flags : Z;
  hwLayers : list hwc_layer_t
}.

Definition numHwLayers (l : hwc_layer_list_t) : nat := length (hwLayers l).

Record hwc_context_t := {
  ctx_fd : Z;
  bb_fd : Z
}.

Record xylonbb_params := {
  dst_dma_buf : Z;
  dst_offset : Z;
  dst_stripe : Z;
  src_dma_buf : Z;
  src_offset : Z;
  src_stripe : Z;
  num_columns : Z;
  num_rows : Z
}.

(** Pixel memory: the pixel at index [idx] of the buffer mapped at
    [base].  Two handles with the same base share their pixels; buffers
    mapped at different bases are taken to be disjoint objects.  An
    index names a pixel of its own buffer: the model follows the flat
    address space [base + 4 * idx] for the accesses that stay inside
    their buffer, and the statements about pixel contents are made for
    those. *)
Definition memory : Type := Z -> Z -> Z.

Definition store (m : memory) (base idx v : Z) : memory :=
  fun b i => if (b =? base) && (i =? idx) then v else m b i.

(** ** Observable events *)

Inductive log_msg :=
| Log_dump_layer (layer_number : nat) (l : hwc_layer_t)
| Log_hwc_prepare
| Log_needs_scaling
| Log_null_base_layer
| Log_bitblitLayer (surfaceBase layerBase sLeft sTop dLeft dTop lLeft lTop : Z)
| Log_handles (surfaceHandle layerHandle : Z)
| Log_base_ref_out_of_bounds
| Log_layer_ref_out_of_bounds (layerLeft i j layerTop layerStride size : Z)
| Log_hwc_set (dpy sur : Z)
| Log_open_failed (fd : Z).

(** [Call_bitblitLayer] marks a call of [bitblitLayer] by [hwc_set]; it
    is not an output of the program, it lets blits be counted. *)
Inductive event :=
| ALOG (m : log_msg)
| Validate (h : private_handle_t)
| Ioctl_BITBLIT (fd : Z) (p : xylonbb_params) (status : Z)
| Load (base idx : Z)
| Store (base idx : Z)
| Call_bitblitLayer (i : nat)
| SwapBuffers (dpy sur : Z) (success : bool)
| Open_xylonbb (fd : Z).

Definition is_access (e : event) : bool :=
  match e with
  | Load _ _ | Store _ _ => true
  | _ => false
  end.

Definition is_out_of_bounds_log (e : event) : bool :=
  match e with
  | ALOG Log_base_ref_out_of_bounds => true
  | ALOG (Log_layer_ref_out_of_bounds _ _ _ _ _ _) => true
  | _ => false
  end.

Definition is_ioctl (e : event) : bool :=
  match e with
  | Ioctl_BITBLIT _ _ _ => true
  | _ => false
  end.

Definition is_blit_call (e : event) : bool :=
  match e with
  | Call_bitblitLayer _ => true
  | _ => false
  end.

Definition is_swap (e : event) : bool :=
  match e with
  | SwapBuffers _ _ _ => true
  | _ => false
  end.

(** ** hwc_prepare *)

Definition set_compositionType (l : hwc_layer_t) (t : Z) : hwc_layer_t :=
  {| compositionType := t; hints := hints l; flags := flags l;
     handle := handle l; transform := transform l; blending := blending l;
     sourceCrop := sourceCrop l; displayFrame := displayFrame l |}.

(** The condition of the [needs scaling] diagnostic, lines 89-92. *)
Definition needs_scaling (l : hwc_layer_t) : bool :=
  negb (int_sub (right (displayFrame l)) (left (displayFrame l))
        =? int_sub (right (sourceCrop l)) (left (sourceCrop l)))
  || negb (int_sub (top (displayFrame l)) (bottom (displayFrame l))
           =? int_sub (top (sourceCrop l)) (bottom (sourceCrop l))).

(** What one iteration logs about the layer [l] it left at index [i]
    ([dumped] is the layer as it was when the iteration began). *)
Definition scan_events (i : nat) (dumped l : hwc_layer_t) : list event :=
  [ALOG (Log_dump_layer i dumped)]
  ++ (if needs_scaling l then [ALOG Log_needs_scaling] else [])
  ++ match handle l with
     | Some phnd => [Validate phnd]
     | None => []
     end.

(** The loop of lines 84-98: [n] iterations remain, [i] is the index.
    The value [private_handle_t::validate] returns is dropped; the call
    is the [Validate] event of [scan_events]. *)
Fixpoint prepare_loop (n i : nat) (ls : list hwc_layer_t)
  : list hwc_layer_t * list event :=
  match n with
  | O => (ls, [])
  | S n' =>
    match ls !! i with
    | None => (ls, [])
    | Some dumped =>
      let ls1 :=
        if (0 <? i)%nat
        then <[i := set_compositionType dumped HWC_OVERLAY]> ls
        else ls in
      match ls1 !! i with
      | None => (ls1, [])
      | Some l =>
        let '(ls2, es) := prepare_loop n' (S i) ls1 in
        (ls2, scan_events i dumped l ++ es)
      end
    end
  end.

Definition hwc_prepare (lst : hwc_layer_list_t)
  : Z * hwc_layer_list_t * list event :=
  if (1 <? numHwLayers lst)%nat then
    if Z.land (list_flags lst) HWC_GEOMETRY_CHANGED =? 0
    then (0, lst, [ALOG Log_hwc_prepare])
    else
      let '(ls, es) := prepare_loop (numHwLayers lst) 0 (hwLayers lst) in
      (0, {| list_flags := list_flags lst; hwLayers := ls |},
       ALOG Log_hwc_prepare :: es)
  else (0, lst, []).

(** ** bitblitLayer: the local variables and the address algebra *)

Record blit_locals := {
  surfaceBase : Z;
  surfaceStride : Z;
  surfaceSize : Z;
  surfaceLeft : Z;
  surfaceTop : Z;
  displayLeft : Z;
  displayTop : Z;
  layerBase : Z;
  layerStride : Z;
  layerSize : Z;
  layerLeft : Z;
  layerTop : Z;
  columns : Z;
  rows : Z
}.

(** Lines 113-130.  The strides are converted to [size_t]. *)
Definition locals (surfaceHandle : private_handle_t) (l0 : hwc_layer_t)
    (layerHandle : private_handle_t) (l : hwc_layer_t) : blit_locals :=
  {| surfaceBase := hnd_base surfaceHandle;
     surfaceStride := to_size_t (hnd_stride surfaceHandle);
     surfaceSize := hnd_size surfaceHandle;
     surfaceLeft := left (sourceCrop l0);
     surfaceTop := top (sourceCrop l0);
     displayLeft := left (displayFrame l);
     displayTop := top (displayFrame l);
     layerBase := hnd_base layerHandle;
     layerStride := to_size_t (hnd_stride layerHandle);
     layerSize := hnd_size layerHandle;
     layerLeft := left (sourceCrop l);
     layerTop := top (sourceCrop l);
     columns := int_sub (right (sourceCrop l)) (left (sourceCrop l));
     rows := int_sub (bottom (sourceCrop l)) (top (sourceCrop l)) |}.

(** [displayLeft + surfaceLeft + i + (j+displayTop+surfaceTop)*surfaceStride]:
    the sums of [int]s are [int]s, the product with a [size_t] and the
    outer sum are [size_t]s. *)
Definition dest_index (g : blit_locals) (i j : Z) : Z :=
  size_add
    (to_size_t (int_add (int_add (displayLeft g) (surfaceLeft g)) i))
    (size_mul (to_size_t (int_add (int_add j (displayTop g)) (surfaceTop g)))
              (surfaceStride g)).

(** [layerLeft + i + (j+layerTop)*layerStride]. *)
Definition src_index (g : blit_locals) (i j : Z) : Z :=
  size_add
    (to_size_t (int_add (layerLeft g) i))
    (size_mul (to_size_t (int_add j (layerTop g))) (layerStride g)).

(** The two guards of lines 153-162; [size] is an [int] converted to
    [size_t] by the comparison. *)
Definition dest_out_of_bounds (g : blit_locals) (i j : Z) : bool :=
  size_mul (dest_index g i j) 4 >? to_size_t (surfaceSize g).

Definition src_out_of_bounds (g : blit_locals) (i j : Z) : bool :=
  size_mul (src_index g i j) 4 >? to_size_t (layerSize g).

(** The request of lines 138-145. *)
Definition blit_params (surfaceHandle layerHandle : private_handle_t)
    (g : blit_locals) : xylonbb_params :=
  {| dst_dma_buf := hnd_fd surfaceHandle;
     dst_offset :=
       size_mul 4
         (size_add
            (to_size_t (int_add (displayLeft g) (surfaceLeft g)))
            (size_mul (to_size_t (int_add (displayTop g) (surfaceTop g)))
                      (surfaceStride g)));
     dst_stripe := surfaceStride g;
     src_dma_buf := hnd_fd layerHandle;
     src_offset :=
       size_mul 4
         (size_add (to_size_t (layerLeft g))
                   (size_mul (to_size_t (layerTop g)) (layerStride g)));
     src_stripe := layerStride g;
     num_columns := columns g;
     num_rows := rows g |}.

(** The diagnostic of lines 132-133. *)
Definition entry_log (g : blit_locals) : event :=
  ALOG (Log_bitblitLayer (surfaceBase g) (layerBase g)
          (surfaceLeft g) (surfaceTop g) (displayLeft g)
          (displayTop g) (layerLeft g) (layerTop g)).

(** ** The software copy loop, lines 151-166 *)

(** How a loop body ends: it falls through to the next iteration, or
    it returns from [bitblitLayer]. *)
Inductive flow := Next | Return.

(** The body of the inner loop. *)
Definition copy_pixel (g : blit_locals) (i j : Z) (m : memory)
  : flow * memory * list event :=
  if dest_out_of_bounds g i j then
    (Return, m, [ALOG Log_base_ref_out_of_bounds])
  else if src_out_of_bounds g i j then
    (Return, m,
     [ALOG (Log_layer_ref_out_of_bounds (layerLeft g) i j (layerTop g)
                                        (layerStride g) (layerSize g))])
  else
    (Next,
     store m (surfaceBase g) (dest_index g i j)
           (m (layerBase g) (src_index g i j)),
     [Load (layerBase g) (src_index g i j);
      Store (surfaceBase g) (dest_index g i j)]).

(** [for (int j = ...; j < rows; j++)] with [n] iterations left. *)
Fixpoint for_j (n : nat) (g : blit_locals) (i j : Z) (m : memory)
  : flow * memory * list event :=
  match n with
  | O => (Next, m, [])
  | S n' =>
    match copy_pixel g i j m with
    | (Return, m1, es) => (Return, m1, es)
    | (Next, m1, es) =>
      let '(f, m2, es') := for_j n' g i (j + 1) m1 in
      (f, m2, es ++ es')
    end
  end.

(** [for (int i = ...; i < columns; i++)] with [n] iterations left. *)
Fixpoint for_i (n : nat) (g : blit_locals) (i : Z) (m : memory)
  : flow * memory * list event :=
  match n with
  | O => (Next, m, [])
  | S n' =>
    match for_j (Z.to_nat (rows g)) g i 0 m with
    | (Return, m1, es) => (Return, m1, es)
    | (Next, m1, es) =>
      let '(f, m2, es') := for_i n' g (i + 1) m1 in
      (f, m2, es ++ es')
    end
  end.

Definition software_copy (g : blit_locals) (m : memory)
  : flow * memory * list event :=
  for_i (Z.to_nat (columns g)) g 0 m.

(** ** The code that talks to the outside: kernel, driver and EGL *)

Section Composer.

(** The state of everything outside the composer (the driver of
    [/dev/xylonbb], the display pipeline); the composer cannot look
    into it. *)
Variable X : Type.

Record state := {
  mem : memory;
  env : X
}.

(** [open("/dev/xylonbb", O_RDWR)]: the descriptor, or [-1]. *)
Variable sys_open : state -> Z * state.

(** [ioctl(fd, XYLONBB_IOC_BITBLIT, &params)]: the status; the
    accelerator may have written pixels. *)
Variable sys_ioctl : Z -> xylonbb_params -> state -> Z * state.

(** [eglSwapBuffers(dpy, sur)], the present operation. *)
Variable eglSwapBuffers : Z -> Z -> state -> bool * state.

(** Lines 135-149: the request to the accelerator.  The boolean says
    that [bitblitLayer] returns here. *)
Definition accelerate (context : hwc_context_t)
    (surfaceHandle layerHandle : private_handle_t) (g : blit_locals)
    (s : state) : bool * state * list event :=
  if bb_fd context =? 0 then (false, s, [])
  else
    let params := blit_params surfaceHandle layerHandle g in
    let '(status, s1) := sys_ioctl (bb_fd context) params s in
    (status =? 0, s1,
     [ALOG (Log_handles (hnd_fd surfaceHandle) (hnd_fd layerHandle));
      Ioctl_BITBLIT (bb_fd context) params status]).

Definition bitblitLayer (context : hwc_context_t) (l0 l : hwc_layer_t)
    (s : state) : state * list event :=
  match handle l0 with
  | None => (s, [ALOG Log_null_base_layer])
  | Some surfaceHandle =>
    match handle l with
    | None => (s, [])
    | Some layerHandle =>
      let g := locals surfaceHandle l0 layerHandle l in
      let entry := entry_log g in
      let '(returned, s1, es1) :=
        accelerate context surfaceHandle layerHandle g s in
      if returned then (s1, entry :: es1)
      else
        let '(_, m2, es2) := software_copy g (mem s1) in
        ({| mem := m2; env := env s1 |}, entry :: es1 ++ es2)
    end
  end.

(** The loop of lines 180-185: [n] iterations remain, [i] is the
    index; [l0] is [hwLayers[0]]. *)
Fixpoint set_loop (n i : nat) (context : hwc_context_t) (l0 : hwc_layer_t)
    (ls : list hwc_layer_t) (s : state) : state * list event :=
  match n with
  | O => (s, [])
  | S n' =>
    match ls !! i with
    | None => (s, [])
    | Some l =>
      let '(s1, es1) :=
        if (0 <? i)%nat then
          let '(s', es) := bitblitLayer context l0 l s in
          (s', Call_bitblitLayer i :: es)
        else (s, []) in
      let '(s2, es2) := set_loop n' (S i) context l0 ls s1 in
      (s2, ALOG (Log_dump_layer i l) :: es1 ++ es2)
    end
  end.

(** Lines 174-186: the blits of one cycle. *)
Definition composite (context : hwc_context_t) (dpy sur : Z)
    (lst : hwc_layer_list_t) (s : state) : state * list event :=
  if (1 <? numHwLayers lst)%nat then
    match hwLayers lst !! 0%nat with
    | None => (s, [])
    | Some l0 =>
      let '(s1, es) :=
        set_loop (numHwLayers lst) 0 context l0 (hwLayers lst) s in
      (s1, ALOG (Log_hwc_set dpy sur) :: es)
    end
  else (s, []).

Definition hwc_set (context : hwc_context_t) (dpy sur : Z)
    (lst : hwc_layer_list_t) (s : state) : Z * state * list event :=
  let '(s1, es) := composite context dpy sur lst s in
  let '(success, s2) := eglSwapBuffers dpy sur s1 in
  if negb success
  then (HWC_EGL_ERROR, s2, es ++ [SwapBuffers dpy sur success])
  else (0, s2, es ++ [SwapBuffers dpy sur success]).

(** Lines 206-238.  The context starts zeroed; the table of
    procedures is not modelled. *)
Definition hwc_device_open (name : string) (s : state)
  : Z * option hwc_context_t * state * list event :=
  if String.eqb name HWC_HARDWARE_COMPOSER then
    let dev := {| ctx_fd := 0; bb_fd := 0 |} in
    let '(fd, s1) := sys_open s in
    let dev1 :=
      if fd =? 0 then dev else {| ctx_fd := ctx_fd dev; bb_fd := fd |} in
    (0, Some dev1, s1,
     Open_xylonbb fd
     :: (if fd <=? 0 then [ALOG (Log_open_failed fd)] else []))
  else (- EINVAL, None, s, []).

End Composer.

Arguments mem {X} _.
Arguments env {X} _.
Arguments Build_state {X} _ _.
Arguments accelerate {X} _ _ _ _ _ _.
Arguments bitblitLayer {X} _ _ _ _ _.
Arguments set_loop {X} _ _ _ _ _ _ _.
Arguments composite {X} _ _ _ _ _ _.
Arguments hwc_set {X} _ _ _ _ _ _ _.
Arguments hwc_device_open {X} _ _ _.

(** ** Vocabulary of the properties *)

(** Width and height of a rectangle, as [int]s. *)
Definition rect_width (r : hwc_rect_t) : Z := int_sub (right r) (left r).
Definition rect_height (r : hwc_rect_t) : Z := int_sub (bottom r) (top r).

(** The layer [hwc_prepare] leaves at index [i] when it scans. *)
Definition planned (i : nat) (l : hwc_layer_t) : hwc_layer_t :=
  if (0 <? i)%nat then set_compositionType l HWC_OVERLAY else l.

(** The pixels [(i, j)] of a region in the order in which the loops of
    lines 151-152 reach them: [i] is the outer index, [j] the inner. *)
Definition visit_order (columns rows : Z) : list (Z * Z) :=
  i ← seqZ 0 columns; (λ j, (i, j)) <$> seqZ 0 rows.

(** The order the specification words: the row index [j] outer, the
    column index [i] innermost. *)
Definition row_outer_order (columns rows : Z) : list (Z * Z) :=
  j ← seqZ 0 rows; (λ i, (i, j)) <$> seqZ 0 columns.

(** The loop body run over a list of pixels, up to the first return. *)
Fixpoint copy_pixels (g : blit_locals) (vs : list (Z * Z)) (m : memory)
  : flow * memory * list event :=
  match vs with
  | [] => (Next, m, [])
  | (i, j) :: vs' =>
    match copy_pixel g i j m with
    | (Return, m1, es) => (Return, m1, es)
    | (Next, m1, es) =>
      let '(f, m2, es') := copy_pixels g vs' m1 in
      (f, m2, es ++ es')
    end
  end.


(** The accesses of one copied pixel, and the memory after a list of
    pixels has been copied one after the other. *)
Definition pixel_accesses (g : blit_locals) (v : Z * Z) : list event :=
  [Load (layerBase g) (src_index g v.1 v.2);
   Store (surfaceBase g) (dest_index g v.1 v.2)].

Definition copy_one (g : blit_locals) (m : memory) (v : Z * Z) : memory :=
  store m (surfaceBase g) (dest_index g v.1 v.2)
        (m (layerBase g) (src_index g v.1 v.2)).

Definition passes_checks (g : blit_locals) (v : Z * Z) : Prop :=
  dest_out_of_bounds g v.1 v.2 = false ∧ src_out_of_bounds g v.1 v.2 = false.

(** The diagnostic of the pixel at which the copy stops. *)
Definition abort_log (g : blit_locals) (v : Z * Z) : event :=
  if dest_out_of_bounds g v.1 v.2 then ALOG Log_base_ref_out_of_bounds
  else ALOG (Log_layer_ref_out_of_bounds (layerLeft g) v.1 v.2 (layerTop g)
                                         (layerStride g) (layerSize g)).

Definition in_region (g : blit_locals) (i j : Z) : Prop :=
  0 <= i < columns g ∧ 0 <= j < rows g.




(** A store that stays inside the base layer's buffer. *)
Definition store_inside (g : blit_locals) (e : event) : Prop :=
  match e with
  | Store b k => b = surfaceBase g ∧ 0 <= k ∧ k * 4 < surfaceSize g
  | _ => True
  end.

(** Every offset computed for the region lies within its buffer. *)
Definition offsets_within_size (g : blit_locals) : Prop :=
  ∀ i j, in_region g i j →
    dest_index g i j * 4 < surfaceSize g ∧ src_index g i j * 4 < layerSize g.

(** Distinct pixels of the region have distinct destinations. *)
Definition dest_injective (g : blit_locals) : Prop :=
  ∀ i j i' j', in_region g i j → in_region g i' j' →
    dest_index g i j = dest_index g i' j' → i = i' ∧ j = j'.

(** No pixel is written where a pixel of the region is read. *)
Definition regions_disjoint (g : blit_locals) : Prop :=
  ∀ i j i' j', in_region g i j → in_region g i' j' →
    ¬ (surfaceBase g = layerBase g ∧ dest_index g i j = src_index g i' j').

(** The destination region holds the source region. *)
Definition region_copied (g : blit_locals) (m : memory) : Prop :=
  ∀ i j, in_region g i j →
    m (surfaceBase g) (dest_index g i j) = m (layerBase g) (src_index g i j).

(** [hwc_prepare] scans the list: lines 81 and 83. *)
Definition scans (lst : hwc_layer_list_t) : Prop :=
  (1 < numHwLayers lst)%nat
  ∧ Z.land (list_flags lst) HWC_GEOMETRY_CHANGED ≠ 0.

(** Two layers that [bitblitLayer] cannot tell apart: it reads the
    handle and the two rectangles only. *)
Definition same_blit_inputs (l l' : hwc_layer_t) : Prop :=
  handle l = handle l'
  ∧ sourceCrop l = sourceCrop l'
  ∧ displayFrame l = displayFrame l'.

(** Two layers that differ at most in their composition type. *)
Definition same_but_type (l l' : hwc_layer_t) : Prop :=
  hints l = hints l' ∧ flags l = flags l' ∧ handle l = handle l'
  ∧ transform l = transform l' ∧ blending l = blending l'
  ∧ sourceCrop l = sourceCrop l' ∧ displayFrame l = displayFrame l'.

(** The handles a trace validated, and the layers a trace blitted. *)
Definition validated (es : list event) : list private_handle_t :=
  omap (λ e, match e with Validate h => Some h | _ => None end) es.

Definition blit_calls (es : list event) : list nat :=
  omap (λ e, match e with Call_bitblitLayer i => Some i | _ => None end) es.

(** An access that the guards of lines 153-162 let through: a store
    goes to the base layer's buffer, a load comes from the source
    layer's buffer, and the byte offset (modulo [2 ^ 32]) is at most
    the size. *)
Definition guarded_access (g : blit_locals) (e : event) : Prop :=
  match e with
  | Store b k =>
    b = surfaceBase g ∧ size_mul k 4 <= to_size_t (surfaceSize g)
  | Load b k =>
    b = layerBase g ∧ size_mul k 4 <= to_size_t (layerSize g)
  | _ => True
  end.

(** The index expressions of lines 153 and 158 over the integers,
    before any wrap-around. *)
Definition dest_index_exact (g : blit_locals) (i j : Z) : Z :=
  displayLeft g + surfaceLeft g + i
  + (j + displayTop g + surfaceTop g) * surfaceStride g.

Definition src_index_exact (g : blit_locals) (i j : Z) : Z :=
  layerLeft g + i + (j + layerTop g) * layerStride g.

(** ** Concrete buffers, layers and outside worlds *)

Module Sample.

Definition rect (l t r b : Z) : hwc_rect_t :=
  {| left := l; top := t; right := r; bottom := b |}.

Definition layer (h : option private_handle_t) (crop frame : hwc_rect_t)
  : hwc_layer_t :=
  {| compositionType := HWC_FRAMEBUFFER; hints := 0; flags := 0;
     handle := h; transform := 0; blending := 0;
     sourceCrop := crop; displayFrame := frame |}.

(** A surface of one row of four pixels: 16 bytes. *)
Definition surface : private_handle_t :=
  {| hnd_fd := 3; hnd_size := 16; hnd_base := 4096; hnd_stride := 4 |}.

(** A surface of four rows of four pixels. *)
Definition wide : private_handle_t :=
  {| hnd_fd := 3; hnd_size := 64; hnd_base := 4096; hnd_stride := 4 |}.

(** A surface whose rows are one pixel long. *)
Definition narrow : private_handle_t :=
  {| hnd_fd := 3; hnd_size := 64; hnd_base := 4096; hnd_stride := 1 |}.

(** A source buffer of two rows of two pixels. *)
Definition tile : private_handle_t :=
  {| hnd_fd := 4; hnd_size := 16; hnd_base := 8192; hnd_stride := 2 |}.

Definition base_layer : hwc_layer_t :=
  layer (Some surface) (rect 0 0 4 1) (rect 0 0 4 1).
Definition wide_base : hwc_layer_t :=
  layer (Some wide) (rect 0 0 4 4) (rect 0 0 4 4).
Definition narrow_base : hwc_layer_t :=
  layer (Some narrow) (rect 0 0 1 16) (rect 0 0 1 16).

(** One pixel of the tile, shown in the row below the surface. *)
Definition below_surface : hwc_layer_t :=
  layer (Some tile) (rect 0 0 1 1) (rect 0 1 1 2).

(** The whole tile, shown from column 1: its second row is below the
    one-row surface. *)
Definition overhanging : hwc_layer_t :=
  layer (Some tile) (rect 0 0 2 2) (rect 1 0 3 2).

(** The whole tile, shown at the origin and at [(1, 1)]. *)
Definition square : hwc_layer_t :=
  layer (Some tile) (rect 0 0 2 2) (rect 0 0 2 2).
Definition inset : hwc_layer_t :=
  layer (Some tile) (rect 0 0 2 2) (rect 1 1 3 3).

(** A crop without columns. *)
Definition empty_crop : hwc_layer_t :=
  layer (Some tile) (rect 1 0 1 2) (rect 0 0 0 2).

(** A crop whose right edge is left of its left edge, so far that the
    difference leaves the [int]s. *)
Definition wrapped_crop : hwc_layer_t :=
  layer (Some tile) (rect (2 ^ 31 - 1) 0 (- 2 ^ 31) 1) (rect 0 0 1 1).

(** A layer shown at twice its width. *)
Definition stretched : hwc_layer_t :=
  layer (Some tile) (rect 0 0 2 2) (rect 0 0 4 2).

Definition two_layers : hwc_layer_list_t :=
  {| list_flags := HWC_GEOMETRY_CHANGED; hwLayers := [wide_base; stretched] |}.
Definition one_layer : hwc_layer_list_t :=
  {| list_flags := HWC_GEOMETRY_CHANGED; hwLayers := [wide_base] |}.

(** A screen of 1024 by 768 pixels and a window of 800 by 600; a region
    of 100 by 50 pixels of the window, taken at [(20, 30)] and shown at
    [(200, 100)]. *)
Definition screen : private_handle_t :=
  {| hnd_fd := 5; hnd_size := 3145728; hnd_base := 268435456;
     hnd_stride := 1024 |}.
Definition window : private_handle_t :=
  {| hnd_fd := 6; hnd_size := 1920000; hnd_base := 536870912;
     hnd_stride := 800 |}.
Definition screen_layer : hwc_layer_t :=
  layer (Some screen) (rect 0 0 1024 768) (rect 0 0 1024 768).
Definition window_layer : hwc_layer_t :=
  layer (Some window) (rect 20 30 120 80) (rect 200 100 300 150).
Definition g_window : blit_locals :=
  locals screen screen_layer window window_layer.

(** A layer without a buffer, and lists around it. *)
Definition no_buffer : hwc_layer_t :=
  layer None (rect 0 0 2 2) (rect 0 0 2 2).
Definition headless : hwc_layer_list_t :=
  {| list_flags := HWC_GEOMETRY_CHANGED;
     hwLayers := [no_buffer; inset; square] |}.
Definition three_layers : hwc_layer_list_t :=
  {| list_flags := HWC_GEOMETRY_CHANGED;
     hwLayers := [wide_base; inset; no_buffer] |}.
Definition unchanged_geometry : hwc_layer_list_t :=
  {| list_flags := 0; hwLayers := [wide_base; inset] |}.

(** The local variables of the blits of these layers. *)
Definition g_below : blit_locals := locals surface base_layer tile below_surface.
Definition g_overhanging : blit_locals :=
  locals surface base_layer tile overhanging.
Definition g_square : blit_locals := locals narrow narrow_base tile square.
Definition g_inset : blit_locals := locals wide wide_base tile inset.
Definition g_empty : blit_locals := locals wide wide_base tile empty_crop.
Definition g_wrapped : blit_locals := locals wide wide_base tile wrapped_crop.

(** Every pixel of every buffer differs from the others. *)
Definition pattern : memory := fun base idx => base + idx.

Definition s0 : state unit := {| mem := pattern; env := tt |}.

Definition no_channel : hwc_context_t := {| ctx_fd := 0; bb_fd := 0 |}.
Definition channel : hwc_context_t := {| ctx_fd := 0; bb_fd := 7 |}.

(** The context [hwc_device_open] builds when [open] returns [-1]. *)
Definition failed_channel : hwc_context_t := {| ctx_fd := 0; bb_fd := -1 |}.

Definition open_fails (s : state unit) : Z * state unit := (-1, s).
Definition ioctl_done (fd : Z) (p : xylonbb_params) (s : state unit)
  : Z * state unit := (0, s).
Definition ioctl_fails (fd : Z) (p : xylonbb_params) (s : state unit)
  : Z * state unit := (-1, s).
Definition swap_done (dpy sur : Z) (s : state unit) : bool * state unit :=
  (true, s).
Definition swap_fails (dpy sur : Z) (s : state unit) : bool * state unit :=
  (false, s).

End Sample.

(** ** Facts about machine integers *)

Example to_int_wraps : to_int (2 ^ 31) = - 2 ^ 31.
Proof. reflexivity. Qed.

Example to_size_t_of_minus_one : to_size_t (-1) = 2 ^ 32 - 1.
Proof. reflexivity. Qed.

Example visit_order_2x2 : visit_order 2 2 = [(0, 0); (0, 1); (1, 0); (1, 1)].
Proof. reflexivity. Qed.

Example row_outer_order_2x2 :
  row_outer_order 2 2 = [(0, 0); (1, 0); (0, 1); (1, 1)].
Proof. reflexivity. Qed.

Example dest_index_inset : dest_index Sample.g_inset 1 1 = 10.
Proof. reflexivity. Qed.

Example src_index_inset : src_index Sample.g_inset 1 1 = 3.
Proof. reflexivity. Qed.

(** The byte offset is computed modulo [2 ^ 32]: the index [2 ^ 30] has
    the byte offset 0 and passes the guard. *)
Example wrapped_offset_admitted :
  dest_index
    (locals Sample.surface Sample.base_layer Sample.tile
       (Sample.layer (Some Sample.tile) (Sample.rect 0 0 1 1)
                     (Sample.rect (2 ^ 30) 0 (2 ^ 30 + 1) 1))) 0 0 = 2 ^ 30
  ∧ dest_out_of_bounds
      (locals Sample.surface Sample.base_layer Sample.tile
         (Sample.layer (Some Sample.tile) (Sample.rect 0 0 1 1)
                       (Sample.rect (2 ^ 30) 0 (2 ^ 30 + 1) 1))) 0 0 = false.
Proof. split; reflexivity. Qed.

(** A negative coordinate turns into a huge unsigned index, which the
    guard rejects. *)
Example negative_frame_rejected :
  dest_out_of_bounds
    (locals Sample.wide Sample.wide_base Sample.tile
       (Sample.layer (Some Sample.tile) (Sample.rect 0 0 1 1)
                     (Sample.rect (-1) 0 0 1))) 0 0 = true.
Proof. reflexivity. Qed.

Lemma to_size_t_range z : 0 <= to_size_t z < 2 ^ 32.
Proof. unfold to_size_t. apply Z.mod_pos_bound. lia. Qed.

Lemma to_size_t_small z : 0 <= z < 2 ^ 32 → to_size_t z = z.
Proof. intros H. unfold to_size_t. by apply Z.mod_small. Qed.

Lemma to_int_range z : is_int (to_int z).
Proof.
  unfold is_int, to_int.
  pose proof (Z.mod_pos_bound (z + 2 ^ 31) (2 ^ 32)). lia.
Qed.

Lemma to_int_small z : is_int z → to_int z = z.
Proof.
  unfold is_int, to_int. intros H.
  rewrite Z.mod_small; lia.
Qed.

Lemma to_size_t_to_int z : to_size_t (to_int z) = to_size_t z.
Proof.
  unfold to_size_t, to_int. apply Z.cong_iff_ex.
  exists (- ((z + 2 ^ 31) / 2 ^ 32)).
  rewrite (Z.mod_eq (z + 2 ^ 31) (2 ^ 32)); lia.
Qed.

Lemma to_size_t_idemp z : to_size_t (to_size_t z) = to_size_t z.
Proof. unfold to_size_t. apply Z.mod_mod. lia. Qed.

Lemma to_size_t_add a b :
  to_size_t (to_size_t a + to_size_t b) = to_size_t (a + b).
Proof. unfold to_size_t. symmetry. apply Zplus_mod. Qed.

Lemma to_size_t_mul a b :
  to_size_t (to_size_t a * to_size_t b) = to_size_t (a * b).
Proof. unfold to_size_t. symmetry. apply Zmult_mod. Qed.

Lemma to_int_eq_iff a b : to_int a = to_int b ↔ to_size_t a = to_size_t b.
Proof.
  split; intros H.
  - rewrite <- (to_size_t_to_int a), <- (to_size_t_to_int b). by rewrite H.
  - unfold to_int. f_equal. unfold to_size_t in H.
    rewrite Zplus_mod, H, <- Zplus_mod. done.
Qed.

(** Negating both sides of a comparison of [int] differences does not
    change its outcome. *)
Lemma int_sub_swap_eq a b c d :
  int_sub a b = int_sub c d ↔ int_sub b a = int_sub d c.
Proof.
  unfold int_sub. rewrite !to_int_eq_iff. unfold to_size_t.
  rewrite !Z.cong_iff_ex.
  split; intros [n Hn]; exists (- n); lia.
Qed.

Lemma to_int_ex z : ∃ k, to_int z = z + k * 2 ^ 32.
Proof.
  exists (- ((z + 2 ^ 31) / 2 ^ 32)). unfold to_int.
  rewrite (Z.mod_eq (z + 2 ^ 31) (2 ^ 32)); lia.
Qed.

Lemma to_size_t_ex z : ∃ k, to_size_t z = z + k * 2 ^ 32.
Proof.
  exists (- (z / 2 ^ 32)). unfold to_size_t.
  rewrite (Z.mod_eq z (2 ^ 32)); lia.
Qed.

(** The indices in closed form: the wrap-arounds of the intermediate
    results collapse into one reduction modulo [2 ^ 32]. *)
Lemma dest_index_closed g i j :
  dest_index g i j =
  to_size_t (displayLeft g + surfaceLeft g + i
             + (j + displayTop g + surfaceTop g) * surfaceStride g).
Proof.
  unfold dest_index, size_add, size_mul, int_add.
  destruct (to_int_ex (displayLeft g + surfaceLeft g)) as [k1 E1].
  destruct (to_int_ex (to_int (displayLeft g + surfaceLeft g) + i)) as [k2 E2].
  destruct (to_int_ex (j + displayTop g)) as [k3 E3].
  destruct (to_int_ex (to_int (j + displayTop g) + surfaceTop g)) as [k4 E4].
  destruct (to_size_t_ex (to_int (to_int (displayLeft g + surfaceLeft g) + i)))
    as [k5 E5].
  destruct (to_size_t_ex (to_int (to_int (j + displayTop g) + surfaceTop g)))
    as [k6 E6].
  destruct (to_size_t_ex
              (to_size_t (to_int (to_int (j + displayTop g) + surfaceTop g))
               * surfaceStride g)) as [k7 E7].
  rewrite E7, E6, E5, E4, E3, E2, E1.
  unfold to_size_t. apply Z.cong_iff_ex.
  exists (k1 + k2 + k5 + (k3 + k4 + k6) * surfaceStride g + k7). ring.
Qed.

Lemma src_index_closed g i j :
  src_index g i j =
  to_size_t (layerLeft g + i + (j + layerTop g) * layerStride g).
Proof.
  unfold src_index, size_add, size_mul, int_add.
  destruct (to_int_ex (layerLeft g + i)) as [k1 E1].
  destruct (to_int_ex (j + layerTop g)) as [k2 E2].
  destruct (to_size_t_ex (to_int (layerLeft g + i))) as [k3 E3].
  destruct (to_size_t_ex (to_int (j + layerTop g))) as [k4 E4].
  destruct (to_size_t_ex (to_size_t (to_int (j + layerTop g)) * layerStride g))
    as [k5 E5].
  rewrite E5, E4, E3, E2, E1.
  unfold to_size_t. apply Z.cong_iff_ex.
  exists (k1 + k3 + (k2 + k4) * layerStride g + k5). ring.
Qed.

(** ** The nested loops are a scan of the visit order *)

Lemma copy_pixels_app g vs1 vs2 m :
  copy_pixels g (vs1 ++ vs2) m =
  match copy_pixels g vs1 m with
  | (Return, m1, es) => (Return, m1, es)
  | (Next, m1, es) =>
    let '(f, m2, es') := copy_pixels g vs2 m1 in (f, m2, es ++ es')
  end.
Proof.
  revert m. induction vs1 as [|[i j] vs1 IH]; intros m; simpl.
  - by destruct (copy_pixels g vs2 m) as [[f m2] es'].
  - destruct (copy_pixel g i j m) as [[[] m1] es]; [|done].
    rewrite IH.
    destruct (copy_pixels g vs1 m1) as [[[] m2] es1]; [|done].
    destruct (copy_pixels g vs2 m2) as [[f m3] es2].
    by rewrite app_assoc.
Qed.

Lemma seqZ_to_nat m n : seqZ m (Z.of_nat (Z.to_nat n)) = seqZ m n.
Proof. unfold seqZ. by rewrite Nat2Z.id. Qed.

Lemma for_j_copy_pixels n g i j m :
  for_j n g i j m = copy_pixels g ((λ j, (i, j)) <$> seqZ j (Z.of_nat n)) m.
Proof.
  revert j m. induction n as [|n IH]; intros j m; [done|].
  rewrite seqZ_cons by lia.
  replace (Z.pred (Z.of_nat (S n))) with (Z.of_nat n) by lia.
  replace (Z.succ j) with (j + 1) by lia.
  simpl. destruct (copy_pixel g i j m) as [[[] m1] es]; [|done].
  by rewrite IH.
Qed.

Lemma for_i_copy_pixels n g i m :
  for_i n g i m =
  copy_pixels g (i' ← seqZ i (Z.of_nat n); (λ j, (i', j)) <$> seqZ 0 (rows g)) m.
Proof.
  revert i m. induction n as [|n IH]; intros i m; [done|].
  rewrite (seqZ_cons i) by lia.
  replace (Z.pred (Z.of_nat (S n))) with (Z.of_nat n) by lia.
  replace (Z.succ i) with (i + 1) by lia.
  rewrite bind_cons, copy_pixels_app.
  cbn [for_i]. rewrite for_j_copy_pixels, seqZ_to_nat.
  destruct (copy_pixels g _ m) as [[[] m1] es]; [|done].
  by rewrite IH.
Qed.

Lemma software_copy_scan g m :
  software_copy g m = copy_pixels g (visit_order (columns g) (rows g)) m.
Proof.
  unfold software_copy, visit_order.
  by rewrite for_i_copy_pixels, seqZ_to_nat.
Qed.

Lemma elem_of_visit_order c r i j :
  (i, j) ∈ visit_order c r ↔ 0 <= i < c ∧ 0 <= j < r.
Proof.
  unfold visit_order. rewrite list_elem_of_bind. split.
  - intros (i' & Hin & Hi'). apply list_elem_of_fmap in Hin as (j' & Heq & Hj').
    inversion Heq; subst. apply elem_of_seqZ in Hi', Hj'. lia.
  - intros [Hi Hj]. exists i. split.
    + apply list_elem_of_fmap. exists j. split; [done|]. apply elem_of_seqZ. lia.
    + apply elem_of_seqZ. lia.
Qed.

(** ** The planner *)

Lemma planned_insert i (d : hwc_layer_t) (ls : list hwc_layer_t) :
  ls !! i = Some d →
  (if (0 <? i)%nat then <[i := set_compositionType d HWC_OVERLAY]> ls else ls)
  = <[i := planned i d]> ls.
Proof.
  intros Hd. unfold planned. destruct (0 <? i)%nat; [done|].
  symmetry. by apply list_insert_id.
Qed.

Lemma prepare_loop_spec n i (ls : list hwc_layer_t) :
  (i + n)%nat = length ls →
  prepare_loop n i ls =
  (take i ls ++ imap (λ k, planned (i + k)) (drop i ls),
   mjoin (imap (λ k l, scan_events (i + k) l (planned (i + k) l)) (drop i ls))).
Proof.
  revert i ls. induction n as [|n IH]; intros i ls Hlen.
  - rewrite drop_ge, take_ge by lia. simpl. by rewrite app_nil_r.
  - destruct (lookup_lt_is_Some_2 ls i) as [d Hd]; [lia|].
    cbn [prepare_loop]. rewrite Hd, (planned_insert i d ls Hd).
    rewrite list_lookup_insert_eq by lia.
    rewrite IH by (rewrite length_insert; lia).
    rewrite (take_S_r _ i (planned i d)) by (apply list_lookup_insert_eq; lia).
    rewrite take_insert_ge, drop_insert_lt by lia.
    rewrite (drop_S ls d i Hd), !imap_cons. cbn [mjoin list_join].
    rewrite Nat.add_0_r, <- app_assoc. cbn [app].
    assert (Hl : imap (λ k, planned (S i + k)) (drop (S i) ls)
                 = imap ((λ k, planned (i + k)) ∘ S) (drop (S i) ls)).
    { apply imap_ext. intros k x _. cbn.
      by replace (i + S k)%nat with (S (i + k)) by lia. }
    assert (He : imap (λ k l, scan_events (S i + k) l (planned (S i + k) l))
                      (drop (S i) ls)
                 = imap ((λ k l, scan_events (i + k) l (planned (i + k) l)) ∘ S)
                        (drop (S i) ls)).
    { apply imap_ext. intros k x _. cbn.
      by replace (i + S k)%nat with (S (i + k)) by lia. }
    by rewrite Hl, He.
Qed.

Lemma hwc_prepare_scan lst :
  (1 < numHwLayers lst)%nat →
  Z.land (list_flags lst) HWC_GEOMETRY_CHANGED ≠ 0 →
  hwc_prepare lst =
  (0, {| list_flags := list_flags lst; hwLayers := imap planned (hwLayers lst) |},
   ALOG Log_hwc_prepare
   :: mjoin (imap (λ i l, scan_events i l (planned i l)) (hwLayers lst))).
Proof.
  intros Hlen Hgeo. unfold hwc_prepare.
  apply Nat.ltb_lt in Hlen. rewrite Hlen.
  apply Z.eqb_neq in Hgeo. rewrite Hgeo.
  by rewrite prepare_loop_spec.
Qed.

Lemma needs_scaling_iff l :
  needs_scaling l = true ↔
  rect_width (displayFrame l) ≠ rect_width (sourceCrop l)
  ∨ rect_height (displayFrame l) ≠ rect_height (sourceCrop l).
Proof.
  unfold needs_scaling, rect_width, rect_height.
  rewrite orb_true_iff, !negb_true_iff, !Z.eqb_neq.
  by rewrite (int_sub_swap_eq (top (displayFrame l))).
Qed.

Lemma planned_needs_scaling i l : needs_scaling (planned i l) = needs_scaling l.
Proof. unfold planned. by destruct (0 <? i)%nat. Qed.

Lemma needs_scaling_logged i d l :
  ALOG Log_needs_scaling ∈ scan_events i d l ↔ needs_scaling l = true.
Proof.
  unfold scan_events.
  destruct (needs_scaling l), (handle l);
    rewrite !elem_of_app, ?list_elem_of_singleton, ?elem_of_nil;
    intuition congruence.
Qed.

(** C2: for a list of more than one layer with the geometry-changed flag
    set, [hwc_prepare] returns, every entry after the first has the
    composition type [HWC_OVERLAY], and the first entry is the one the
    list had at entry, its composition type included. *)
Theorem hwc_prepare_claims_overlays lst :
  (1 < numHwLayers lst)%nat →
  Z.land (list_flags lst) HWC_GEOMETRY_CHANGED ≠ 0 →
  let lst' := (hwc_prepare lst).1.2 in
  (hwc_prepare lst).1.1 = 0
  ∧ numHwLayers lst' = numHwLayers lst
  ∧ (∀ i, (0 < i < numHwLayers lst)%nat →
       ∃ l', hwLayers lst' !! i = Some l'
             ∧ compositionType l' = HWC_OVERLAY)
  ∧ (∃ l0, hwLayers lst !! 0%nat = Some l0
           ∧ hwLayers lst' !! 0%nat = Some l0).
Proof.
  intros Hlen Hgeo. rewrite (hwc_prepare_scan lst Hlen Hgeo). cbn.
  unfold numHwLayers in *. cbn. rewrite length_imap.
  split; [done|]. split; [done|]. split.
  - intros i Hi. destruct (lookup_lt_is_Some_2 (hwLayers lst) i) as [l Hl]; [lia|].
    exists (planned i l). rewrite list_lookup_imap, Hl. split; [done|].
    unfold planned. destruct (0 <? i)%nat eqn:E; [done|].
    apply Nat.ltb_ge in E. lia.
  - destruct (lookup_lt_is_Some_2 (hwLayers lst) 0) as [l0 Hl0]; [lia|].
    exists l0. by rewrite list_lookup_imap, Hl0.
Qed.

(** C7: when [hwc_prepare] scans (more than one layer, geometry-changed
    set), its diagnostics are those of the layers in list order, and the
    diagnostics of a layer contain [needs scaling] exactly when its
    display frame and its source crop differ in width or in height. *)
Theorem hwc_prepare_scaling_diagnostic lst :
  (1 < numHwLayers lst)%nat →
  Z.land (list_flags lst) HWC_GEOMETRY_CHANGED ≠ 0 →
  (hwc_prepare lst).2 =
    ALOG Log_hwc_prepare
    :: mjoin (imap (λ i l, scan_events i l (planned i l)) (hwLayers lst))
  ∧ ∀ i l, hwLayers lst !! i = Some l →
      (ALOG Log_needs_scaling ∈ scan_events i l (planned i l)
       ↔ rect_width (displayFrame l) ≠ rect_width (sourceCrop l)
         ∨ rect_height (displayFrame l) ≠ rect_height (sourceCrop l)).
Proof.
  intros Hlen Hgeo. rewrite (hwc_prepare_scan lst Hlen Hgeo). split; [done|].
  intros i l _. rewrite <- needs_scaling_iff, <- (planned_needs_scaling i l).
  apply needs_scaling_logged.
Qed.

(** ** The software copy *)

Lemma copy_pixel_pass g i j m :
  passes_checks g (i, j) →
  copy_pixel g i j m = (Next, copy_one g m (i, j), pixel_accesses g (i, j)).
Proof. intros [Hd Hs]. cbn in Hd, Hs. unfold copy_pixel. by rewrite Hd, Hs. Qed.

Lemma copy_pixel_fail g i j m :
  ¬ passes_checks g (i, j) →
  copy_pixel g i j m = (Return, m, [abort_log g (i, j)]).
Proof.
  unfold passes_checks, copy_pixel, abort_log. cbn. intros H.
  destruct (dest_out_of_bounds g i j); [done|].
  destruct (src_out_of_bounds g i j); [done|]. by destruct H.
Qed.

Lemma passes_checks_dec g v : {passes_checks g v} + {¬ passes_checks g v}.
Proof.
  unfold passes_checks.
  destruct (dest_out_of_bounds g v.1 v.2), (src_out_of_bounds g v.1 v.2);
    (by left) || (right; intros [? ?]; discriminate).
Defined.

Lemma copy_pixels_all_pass g vs m :
  Forall (passes_checks g) vs →
  copy_pixels g vs m = (Next, foldl (copy_one g) m vs, vs ≫= pixel_accesses g).
Proof.
  intros H. revert m. induction H as [|[i j] vs Hv _ IH]; intros m; [done|].
  cbn [copy_pixels]. rewrite (copy_pixel_pass g i j m Hv), IH. done.
Qed.

Lemma copy_pixels_prefix g vs m :
  ∃ done rest,
    vs = done ++ rest
    ∧ Forall (passes_checks g) done
    ∧ match rest with
      | [] =>
        copy_pixels g vs m =
        (Next, foldl (copy_one g) m done, done ≫= pixel_accesses g)
      | v :: _ =>
        ¬ passes_checks g v
        ∧ copy_pixels g vs m =
          (Return, foldl (copy_one g) m done,
           (done ≫= pixel_accesses g) ++ [abort_log g v])
      end.
Proof.
  revert m. induction vs as [|[i j] vs IH]; intros m.
  - exists [], []. by repeat split.
  - destruct (passes_checks_dec g (i, j)) as [Hv|Hv].
    + destruct (IH (copy_one g m (i, j))) as (done & rest & -> & Hdone & Hrest).
      exists ((i, j) :: done), rest. split; [done|]. split; [by constructor|].
      cbn [copy_pixels]. rewrite (copy_pixel_pass g i j m Hv).
      destruct rest as [|v rest].
      * by rewrite Hrest.
      * destruct Hrest as [Hf ->]. done.
    + exists [], ((i, j) :: vs). split; [done|]. split; [constructor|].
      split; [done|]. cbn [copy_pixels]. by rewrite (copy_pixel_fail g i j m Hv).
Qed.

Lemma store_eq m b k v : store m b k v b k = v.
Proof. unfold store. by rewrite !Z.eqb_refl. Qed.

Lemma store_ne m b k v b' k' : ¬ (b' = b ∧ k' = k) → store m b k v b' k' = m b' k'.
Proof.
  unfold store. intros H.
  destruct (Z.eqb_spec b' b), (Z.eqb_spec k' k); cbn; try done.
  by destruct H.
Qed.

(** Copying pixels changes only their destinations. *)
Lemma foldl_copy_one_frame g vs m b k :
  (∀ v, v ∈ vs → ¬ (b = surfaceBase g ∧ k = dest_index g v.1 v.2)) →
  foldl (copy_one g) m vs b k = m b k.
Proof.
  revert m. induction vs as [|v vs IH]; intros m H; [done|].
  cbn [foldl]. rewrite IH.
  - unfold copy_one. apply store_ne. apply H. by left.
  - intros v' Hv'. apply H. by right.
Qed.

(** With distinct destinations that are nobody's source, every pixel of
    the list ends up holding what its source held at the start. *)
Lemma foldl_copy_one_copied g vs m :
  (∀ v v', v ∈ vs → v' ∈ vs →
     dest_index g v.1 v.2 = dest_index g v'.1 v'.2 → v = v') →
  (∀ v v', v ∈ vs → v' ∈ vs →
     ¬ (surfaceBase g = layerBase g
        ∧ dest_index g v.1 v.2 = src_index g v'.1 v'.2)) →
  ∀ v, v ∈ vs →
    foldl (copy_one g) m vs (surfaceBase g) (dest_index g v.1 v.2)
    = m (layerBase g) (src_index g v.1 v.2).
Proof.
  revert m. induction vs as [|a vs IH]; intros m Hinj Hdisj v Hv.
  - by apply elem_of_nil in Hv.
  - cbn [foldl]. destruct (decide (v ∈ vs)) as [Hin|Hnin].
    + rewrite IH; [| | |done].
      * unfold copy_one. apply store_ne. intros [Hb Hk].
        apply (Hdisj a v); [by left|by right|]. split; congruence.
      * intros v1 v2 H1 H2. apply Hinj; by right.
      * intros v1 v2 H1 H2. apply Hdisj; by right.
    + apply elem_of_cons in Hv as [->|Hv]; [|done].
      rewrite foldl_copy_one_frame.
      * unfold copy_one. apply store_eq.
      * intros v' Hv' [_ Hk]. apply Hnin.
        rewrite (Hinj a v'); [done|by left|by right|done].
Qed.

Lemma dest_index_range g i j : 0 <= dest_index g i j < 2 ^ 32.
Proof. rewrite dest_index_closed. apply to_size_t_range. Qed.

Lemma src_index_range g i j : 0 <= src_index g i j < 2 ^ 32.
Proof. rewrite src_index_closed. apply to_size_t_range. Qed.

Lemma within_size_passes g :
  is_int (surfaceSize g) → is_int (layerSize g) →
  offsets_within_size g →
  Forall (passes_checks g) (visit_order (columns g) (rows g)).
Proof.
  unfold is_int. intros Hs Hl Hin. apply Forall_forall. intros [i j] Hv.
  apply elem_of_visit_order in Hv. destruct (Hin i j Hv) as [Hd Hsrc].
  pose proof (dest_index_range g i j) as Rd.
  pose proof (src_index_range g i j) as Rs.
  split; cbn.
  - unfold dest_out_of_bounds, size_mul.
    rewrite !to_size_t_small by lia. rewrite Z.gtb_ltb. apply Z.ltb_ge. lia.
  - unfold src_out_of_bounds, size_mul.
    rewrite !to_size_t_small by lia. rewrite Z.gtb_ltb. apply Z.ltb_ge. lia.
Qed.

(** An [int] difference that does not overflow is the difference. *)
Lemma int_sub_exact a b : is_int (a - b) → int_sub a b = a - b.
Proof. apply to_int_small. Qed.

(** An empty trip count: the loops do nothing. *)
Lemma software_copy_empty g m :
  columns g <= 0 ∨ rows g <= 0 → software_copy g m = (Next, m, []).
Proof.
  intros H. rewrite software_copy_scan.
  assert (visit_order (columns g) (rows g) = []) as ->; [|done].
  apply elem_of_nil_inv. intros [i j] Hv.
  apply elem_of_visit_order in Hv. lia.
Qed.




(** ** The blit engine and the executor *)

Section Properties.

Context {X : Type}.
Variable sys_ioctl : Z → xylonbb_params → state X → Z * state X.
Variable eglSwapBuffers : Z → Z → state X → bool * state X.

Lemma bitblitLayer_unfold context l0 l surfaceHandle layerHandle s :
  handle l0 = Some surfaceHandle →
  handle l = Some layerHandle →
  let g := locals surfaceHandle l0 layerHandle l in
  let a := accelerate sys_ioctl context surfaceHandle layerHandle g s in
  let c := software_copy g (mem a.1.2) in
  bitblitLayer sys_ioctl context l0 l s =
  if a.1.1 then (a.1.2, entry_log g :: a.2)
  else ({| mem := c.1.2; env := env a.1.2 |}, entry_log g :: a.2 ++ c.2).
Proof.
  intros H0 Hl. cbn zeta. unfold bitblitLayer. rewrite H0, Hl.
  destruct (accelerate _ _ _ _ _ _) as [[returned s1] es1]. cbn.
  destruct (software_copy _ _) as [[f m2] es2]. done.
Qed.

Lemma accelerate_falls_through context surfaceHandle layerHandle g s :
  bb_fd context = 0
  ∨ (sys_ioctl (bb_fd context) (blit_params surfaceHandle layerHandle g) s).1
    ≠ 0 →
  (accelerate sys_ioctl context surfaceHandle layerHandle g s).1.1 = false.
Proof.
  unfold accelerate. intros [H|H].
  - by rewrite H.
  - destruct (bb_fd context =? 0); [done|].
    destruct (sys_ioctl _ _ _) as [status s1]. cbn in *.
    by apply Z.eqb_neq.
Qed.

Lemma accelerate_events context surfaceHandle layerHandle g s :
  Forall (λ e, is_access e = false ∧ is_out_of_bounds_log e = false)
         (accelerate sys_ioctl context surfaceHandle layerHandle g s).2.
Proof.
  unfold accelerate. destruct (bb_fd context =? 0); [constructor|].
  destruct (sys_ioctl _ _ _) as [status s1]. cbn.
  repeat constructor.
Qed.

(** C4: with an accelerator channel ([bb_fd] not zero) and a request
    that returns status 0, the blit is the diagnostics and the one
    request: the state is the one the accelerator left, and the
    composer itself loads and stores no pixel. *)
Theorem accelerated_blit_skips_software_copy
    context l0 l surfaceHandle layerHandle s :
  handle l0 = Some surfaceHandle →
  handle l = Some layerHandle →
  bb_fd context ≠ 0 →
  let g := locals surfaceHandle l0 layerHandle l in
  let params := blit_params surfaceHandle layerHandle g in
  (sys_ioctl (bb_fd context) params s).1 = 0 →
  bitblitLayer sys_ioctl context l0 l s =
    ((sys_ioctl (bb_fd context) params s).2,
     [entry_log g;
      ALOG (Log_handles (hnd_fd surfaceHandle) (hnd_fd layerHandle));
      Ioctl_BITBLIT (bb_fd context) params 0])
  ∧ Forall (λ e, is_access e = false)
           (bitblitLayer sys_ioctl context l0 l s).2.
Proof.
  intros H0 Hl Hfd g params Hst.
  assert (bitblitLayer sys_ioctl context l0 l s =
    ((sys_ioctl (bb_fd context) params s).2,
     [entry_log g;
      ALOG (Log_handles (hnd_fd surfaceHandle) (hnd_fd layerHandle));
      Ioctl_BITBLIT (bb_fd context) params 0])) as E.
  { rewrite (bitblitLayer_unfold context l0 l _ _ s H0 Hl).
    fold g. unfold accelerate. apply Z.eqb_neq in Hfd. rewrite Hfd.
    fold params. destruct (sys_ioctl (bb_fd context) params s) as [status s1].
    cbn in Hst. subst status. done. }
  split; [done|]. rewrite E. cbn. repeat constructor.
Qed.

(** C3 (as the code has it): with both handles present, no channel or
    a request that returns non-zero, every offset of the region within
    its buffer, distinct pixels of the region at distinct destination
    indices and no destination of the region being a source of the
    region, the blit leaves in the destination region the pixels of
    the source region, which are those the source held when the
    software loop began. *)
Theorem software_copy_byte_correct
    context l0 l surfaceHandle layerHandle s :
  handle l0 = Some surfaceHandle →
  handle l = Some layerHandle →
  let g := locals surfaceHandle l0 layerHandle l in
  bb_fd context = 0
  ∨ (sys_ioctl (bb_fd context) (blit_params surfaceHandle layerHandle g) s).1
    ≠ 0 →
  is_int (hnd_size surfaceHandle) →
  is_int (hnd_size layerHandle) →
  offsets_within_size g →
  dest_injective g →
  regions_disjoint g →
  let s1 := (accelerate sys_ioctl context surfaceHandle layerHandle g s).1.2 in
  let s' := (bitblitLayer sys_ioctl context l0 l s).1 in
  region_copied g (mem s')
  ∧ ∀ i j, in_region g i j →
      mem s' (layerBase g) (src_index g i j)
      = mem s1 (layerBase g) (src_index g i j).
Proof.
  intros H0 Hl g Hfall Hs Hls Hin Hinj Hdisj s1 s'.
  pose proof (within_size_passes g Hs Hls Hin) as Hpass.
  assert (mem s' = foldl (copy_one g) (mem s1)
                     (visit_order (columns g) (rows g))) as Hmem.
  { unfold s'. rewrite (bitblitLayer_unfold context l0 l _ _ s H0 Hl).
    fold g. rewrite (accelerate_falls_through _ _ _ g s Hfall).
    fold s1. cbn. rewrite software_copy_scan.
    by rewrite (copy_pixels_all_pass g _ (mem s1) Hpass). }
  assert (∀ i j, in_region g i j →
            mem s' (layerBase g) (src_index g i j)
            = mem s1 (layerBase g) (src_index g i j)) as Hsrc.
  { intros i j Hij. rewrite Hmem. apply foldl_copy_one_frame.
    intros [i' j'] Hv. apply elem_of_visit_order in Hv. cbn.
    intros [Hb Hk]. apply (Hdisj i' j' i j Hv Hij).
    split; [exact (eq_sym Hb)|exact (eq_sym Hk)]. }
  split; [|done].
  intros i j Hij. rewrite (Hsrc i j Hij), Hmem.
  apply (foldl_copy_one_copied g _ (mem s1)) with (v := (i, j)).
  - intros [i1 j1] [i2 j2] H1 H2 Heq.
    apply elem_of_visit_order in H1, H2. cbn in Heq.
    destruct (Hinj i1 j1 i2 j2 H1 H2 Heq). by subst.
  - intros [i1 j1] [i2 j2] H1 H2.
    apply elem_of_visit_order in H1, H2. by apply Hdisj.
  - by apply elem_of_visit_order.
Qed.

(** C10: with both handles present and a source crop that is empty or
    inverted on one axis (the extent on that axis being an [int]: the
    subtraction of line 129 or 130 does not overflow), the blit loads
    and stores no pixel and logs no out-of-bounds diagnostic; the state
    is the one the accelerator request left, or the initial one when no
    request is made. *)
Theorem empty_crop_blit_copies_nothing
    context l0 l surfaceHandle layerHandle s :
  handle l0 = Some surfaceHandle →
  handle l = Some layerHandle →
  (right (sourceCrop l) <= left (sourceCrop l)
   ∧ is_int (right (sourceCrop l) - left (sourceCrop l)))
  ∨ (bottom (sourceCrop l) <= top (sourceCrop l)
     ∧ is_int (bottom (sourceCrop l) - top (sourceCrop l))) →
  let g := locals surfaceHandle l0 layerHandle l in
  let r := bitblitLayer sys_ioctl context l0 l s in
  Forall (λ e, is_access e = false ∧ is_out_of_bounds_log e = false) r.2
  ∧ r.1 = (accelerate sys_ioctl context surfaceHandle layerHandle g s).1.2
  ∧ (bb_fd context = 0 → r.1 = s).
Proof.
  intros H0 Hl Hempty g r.
  assert (columns g <= 0 ∨ rows g <= 0) as Hg.
  { destruct Hempty as [[Hle Hint]|[Hle Hint]]; [left|right]; cbn;
      rewrite int_sub_exact by done; lia. }
  unfold r. rewrite (bitblitLayer_unfold context l0 l _ _ s H0 Hl). fold g.
  rewrite (software_copy_empty g _ Hg).
  pose proof (accelerate_events context surfaceHandle layerHandle g s) as Hev.
  assert (bb_fd context = 0 →
          accelerate sys_ioctl context surfaceHandle layerHandle g s
          = (false, s, [])) as Hnone.
  { intros Hz. unfold accelerate. by rewrite Hz. }
  destruct (accelerate _ _ _ _ _ _) as [[returned [m1 x1]] es1].
  cbn in *. split; [|split].
  - destruct returned; cbn; rewrite ?app_nil_r; by constructor.
  - by destruct returned.
  - intros Hz. specialize (Hnone Hz). by inversion Hnone.
Qed.

Lemma copy_pixels_no_swap g vs m :
  Forall (λ e, is_swap e = false ∧ is_blit_call e = false)
         (copy_pixels g vs m).2.
Proof.
  revert m. induction vs as [|[i j] vs IH]; intros m; [constructor|].
  cbn [copy_pixels]. unfold copy_pixel.
  destruct (dest_out_of_bounds g i j); [by repeat constructor|].
  destruct (src_out_of_bounds g i j); [by repeat constructor|].
  specialize (IH (store m (surfaceBase g) (dest_index g i j)
                        (m (layerBase g) (src_index g i j)))).
  destruct (copy_pixels g vs _) as [[f m2] es']. cbn in *.
  by repeat constructor.
Qed.

Lemma bitblitLayer_no_swap context l0 l s :
  Forall (λ e, is_swap e = false ∧ is_blit_call e = false)
         (bitblitLayer sys_ioctl context l0 l s).2.
Proof.
  destruct (handle l0) as [surfaceHandle|] eqn:H0.
  2: { unfold bitblitLayer. rewrite H0. by repeat constructor. }
  destruct (handle l) as [layerHandle|] eqn:Hl.
  2: { unfold bitblitLayer. rewrite H0, Hl. constructor. }
  rewrite (bitblitLayer_unfold context l0 l _ _ s H0 Hl).
  pose proof (copy_pixels_no_swap
                (locals surfaceHandle l0 layerHandle l)
                (visit_order (columns (locals surfaceHandle l0 layerHandle l))
                             (rows (locals surfaceHandle l0 layerHandle l)))
                (mem (accelerate sys_ioctl context surfaceHandle layerHandle
                        (locals surfaceHandle l0 layerHandle l) s).1.2)) as Hc.
  rewrite <- software_copy_scan in Hc.
  assert (Forall (λ e, is_swap e = false ∧ is_blit_call e = false)
            (accelerate sys_ioctl context surfaceHandle layerHandle
               (locals surfaceHandle l0 layerHandle l) s).2) as Ha.
  { unfold accelerate. destruct (bb_fd context =? 0); [constructor|].
    destruct (sys_ioctl _ _ _) as [status s1]. by repeat constructor. }
  destruct (accelerate _ _ _ _ _ _) as [[[] s1] es1]; cbn in *.
  - by constructor.
  - constructor; [done|]. by apply Forall_app.
Qed.

Lemma set_loop_no_swap n i context l0 ls s :
  Forall (λ e, is_swap e = false)
         (set_loop sys_ioctl n i context l0 ls s).2.
Proof.
  revert i s. induction n as [|n IH]; intros i s; [constructor|].
  cbn [set_loop]. destruct (ls !! i) as [l|]; [|constructor].
  pose proof (bitblitLayer_no_swap context l0 l s) as Hb.
  destruct (0 <? i)%nat.
  - destruct (bitblitLayer sys_ioctl context l0 l s) as [s' es].
    specialize (IH (S i) s').
    destruct (set_loop sys_ioctl n (S i) context l0 ls s') as [s2 es2].
    cbn in *. constructor; [done|]. constructor; [done|].
    apply Forall_app. split; [|done].
    eapply Forall_impl; [exact Hb|]. by intros e [? ?].
  - specialize (IH (S i) s).
    destruct (set_loop sys_ioctl n (S i) context l0 ls s) as [s2 es2].
    cbn in *. by constructor.
Qed.

Lemma composite_no_swap context dpy sur lst s :
  Forall (λ e, is_swap e = false)
         (composite sys_ioctl context dpy sur lst s).2.
Proof.
  unfold composite. destruct (1 <? numHwLayers lst)%nat; [|constructor].
  destruct (hwLayers lst !! 0%nat) as [l0|]; [|constructor].
  pose proof (set_loop_no_swap (numHwLayers lst) 0 context l0 (hwLayers lst) s)
    as H.
  destruct (set_loop _ _ _ _ _ _ _) as [s1 es]. cbn in *. by constructor.
Qed.

(** C5: the status of [hwc_set] is [HWC_EGL_ERROR] exactly when the
    present operation, called once on the state the blits left, fails,
    and 0 exactly when it succeeds; whatever the blits of the cycle
    did (whatever the context, the list and the state), nothing else
    enters the status, and they call no present operation. *)
Theorem hwc_set_status_iff_present_fails context dpy sur lst s :
  let c := composite sys_ioctl context dpy sur lst s in
  let success := (eglSwapBuffers dpy sur c.1).1 in
  let r := hwc_set sys_ioctl eglSwapBuffers context dpy sur lst s in
  (r.1.1 = HWC_EGL_ERROR ↔ success = false)
  ∧ (r.1.1 = 0 ↔ success = true)
  ∧ r.2 = c.2 ++ [SwapBuffers dpy sur success]
  ∧ Forall (λ e, is_swap e = false) c.2.
Proof.
  cbn zeta. unfold hwc_set.
  pose proof (composite_no_swap context dpy sur lst s) as Hc.
  destruct (composite sys_ioctl context dpy sur lst s) as [s1 es]. cbn.
  destruct (eglSwapBuffers dpy sur s1) as [[] s2]; cbn; by repeat split.
Qed.

(** C9: for a list of at most one layer, [hwc_prepare] returns the
    list as it took it (every composition type unchanged) and logs
    nothing; [hwc_set] performs no blit: it only invokes the present
    operation, once and on the state it was given, and returns 0 when
    it succeeds and [HWC_EGL_ERROR] when it fails. *)
Theorem single_layer_cycle context dpy sur lst s :
  (numHwLayers lst <= 1)%nat →
  hwc_prepare lst = (0, lst, [])
  ∧ hwc_set sys_ioctl eglSwapBuffers context dpy sur lst s =
    (if (eglSwapBuffers dpy sur s).1 then 0 else HWC_EGL_ERROR,
     (eglSwapBuffers dpy sur s).2,
     [SwapBuffers dpy sur (eglSwapBuffers dpy sur s).1])
  ∧ Forall (λ e, is_blit_call e = false ∧ is_access e = false
                 ∧ is_ioctl e = false)
           (composite sys_ioctl context dpy sur lst s).2.
Proof.
  intros Hlen. apply Nat.ltb_ge in Hlen.
  unfold hwc_prepare, hwc_set, composite. rewrite Hlen.
  split; [done|]. split; [|constructor].
  by destruct (eglSwapBuffers dpy sur s) as [[] s2].
Qed.

(** A context whose [bb_fd] is not zero sends a request for every
    blit that has both handles. *)
Lemma nonzero_bb_fd_requests context l0 l surfaceHandle layerHandle s :
  handle l0 = Some surfaceHandle →
  handle l = Some layerHandle →
  bb_fd context ≠ 0 →
  Exists (λ e, is_ioctl e = true) (bitblitLayer sys_ioctl context l0 l s).2.
Proof.
  intros H0 Hl Hfd. rewrite (bitblitLayer_unfold context l0 l _ _ s H0 Hl).
  unfold accelerate. apply Z.eqb_neq in Hfd. rewrite Hfd.
  destruct (sys_ioctl _ _ _) as [status s1]. cbn.
  destruct (status =? 0); cbn; by repeat constructor.
Qed.

End Properties.

(** When [open] returns [-1], [hwc_device_open] succeeds and stores [-1]
    in [bb_fd]. *)
Lemma hwc_device_open_failed {X : Type} (sys_open : state X → Z * state X) s :
  (sys_open s).1 = -1 →
  hwc_device_open sys_open HWC_HARDWARE_COMPOSER s =
  (0, Some {| ctx_fd := 0; bb_fd := -1 |}, (sys_open s).2,
   [Open_xylonbb (-1); ALOG (Log_open_failed (-1))]).
Proof.
  intros H. unfold hwc_device_open.
  destruct (sys_open s) as [fd s1]. cbn in H. by subst fd.
Qed.

Lemma in_region_2x2 g i j :
  columns g = 2 → rows g = 2 → in_region g i j →
  (i = 0 ∨ i = 1) ∧ (j = 0 ∨ j = 1).
Proof. unfold in_region. intros -> ->. lia. Qed.


(** ** The properties on concrete inputs *)

(** C1: the guard of line 154 lets through the destination offset that
    equals the size.  On the one-row surface of 16 bytes the pixel shown
    in the row below has index 4, byte offset 16; the check [16 > 16]
    does not fire and the pixel is stored past the end of the buffer. *)
Theorem bounds_check_admits_offset_at_size :
  dest_index Sample.g_below 0 0 = 4
  ∧ ¬ (dest_index Sample.g_below 0 0 * 4 < hnd_size Sample.surface)
  ∧ (bitblitLayer Sample.ioctl_fails Sample.no_channel
       Sample.base_layer Sample.below_surface Sample.s0).2
    = [entry_log Sample.g_below; Load 8192 0; Store 4096 4]
  ∧ mem (bitblitLayer Sample.ioctl_fails Sample.no_channel
           Sample.base_layer Sample.below_surface Sample.s0).1 4096 4
    = Sample.pattern 8192 0.
Proof.
  split; [by vm_compute|].
  split; [vm_compute; intros H; discriminate H|].
  split; by vm_compute.
Qed.

(** C3, refuted as stated: on a surface whose stride is 1 the pixels
    [(0, 1)] and [(1, 0)] of a 2 by 2 region share the destination index
    1; every offset is within its buffer, yet after the blit the
    destination of pixel [(0, 1)] holds the source of pixel [(1, 0)]. *)
Lemma colliding_destinations_break_the_copy :
  handle Sample.narrow_base = Some Sample.narrow
  ∧ handle Sample.square = Some Sample.tile
  ∧ bb_fd Sample.no_channel = 0
  ∧ offsets_within_size Sample.g_square
  ∧ ¬ region_copied Sample.g_square
        (mem (bitblitLayer Sample.ioctl_fails Sample.no_channel
                Sample.narrow_base Sample.square Sample.s0).1).
Proof.
  do 3 (split; [done|]). split.
  - intros i j Hij.
    destruct (in_region_2x2 Sample.g_square i j eq_refl eq_refl Hij) as [[-> | ->] [-> | ->]];
      by vm_compute.
  - intros H.
    assert (in_region Sample.g_square 0 1) as Hij by (by vm_compute).
    specialize (H 0 1 Hij). vm_compute in H. discriminate H.
Qed.


(** C10, refuted as stated: the crop [(2^31 - 1, 0, -2^31, 1)] has its
    right edge left of its left edge, and both layers have a handle;
    the subtraction of line 129 wraps to one column, the loop visits
    pixel [(0, 0)] and logs a layer-ref out-of-bounds diagnostic. *)
Lemma wrapped_inverted_crop_is_visited :
  right (sourceCrop Sample.wrapped_crop) <= left (sourceCrop Sample.wrapped_crop)
  ∧ handle Sample.wide_base = Some Sample.wide
  ∧ handle Sample.wrapped_crop = Some Sample.tile
  ∧ columns Sample.g_wrapped = 1
  ∧ rows Sample.g_wrapped = 1
  ∧ (bitblitLayer Sample.ioctl_fails Sample.no_channel Sample.wide_base
       Sample.wrapped_crop Sample.s0).2
    = [entry_log Sample.g_wrapped;
       ALOG (Log_layer_ref_out_of_bounds (2 ^ 31 - 1) 0 0 0 2 16)]
  ∧ ¬ Forall (λ e, is_out_of_bounds_log e = false)
        (bitblitLayer Sample.ioctl_fails Sample.no_channel Sample.wide_base
           Sample.wrapped_crop Sample.s0).2.
Proof.
  split; [vm_compute; intros H; discriminate H|].
  do 5 (split; [by vm_compute|]).
  intros H. apply Forall_cons in H as [_ H]. apply Forall_cons in H as [H _].
  vm_compute in H. discriminate H.
Qed.

(** C8: [open] returns [-1]; [hwc_device_open] returns 0, logs the
    failure and leaves [-1] in [bb_fd].  The next blit finds [bb_fd]
    not zero and sends the request on descriptor [-1] before it falls
    back to the software copy. *)
Theorem failed_open_still_sends_requests :
  hwc_device_open Sample.open_fails HWC_HARDWARE_COMPOSER Sample.s0
  = (0, Some Sample.failed_channel, Sample.s0,
     [Open_xylonbb (-1); ALOG (Log_open_failed (-1))])
  ∧ (bitblitLayer Sample.ioctl_fails Sample.failed_channel
       Sample.base_layer Sample.below_surface Sample.s0).2
    = [entry_log Sample.g_below;
       ALOG (Log_handles 3 4);
       Ioctl_BITBLIT (-1)
         (blit_params Sample.surface Sample.tile Sample.g_below) (-1);
       Load 8192 0; Store 4096 4].
Proof. split; by vm_compute. Qed.

(** ** Instances *)

Lemma hwc_prepare_claims_overlays_witness :
  (hwc_prepare Sample.two_layers).1.1 = 0
  ∧ numHwLayers (hwc_prepare Sample.two_layers).1.2
    = numHwLayers Sample.two_layers
  ∧ (∀ i, (0 < i < numHwLayers Sample.two_layers)%nat →
       ∃ l', hwLayers (hwc_prepare Sample.two_layers).1.2 !! i = Some l'
             ∧ compositionType l' = HWC_OVERLAY)
  ∧ (∃ l0, hwLayers Sample.two_layers !! 0%nat = Some l0
           ∧ hwLayers (hwc_prepare Sample.two_layers).1.2 !! 0%nat = Some l0).
Proof.
  apply (hwc_prepare_claims_overlays Sample.two_layers).
  - cbn. lia.
  - vm_compute. intros H. discriminate H.
Defined.

Lemma hwc_prepare_scaling_diagnostic_witness :
  (hwc_prepare Sample.two_layers).2 =
    ALOG Log_hwc_prepare
    :: mjoin (imap (λ i l, scan_events i l (planned i l))
                   (hwLayers Sample.two_layers))
  ∧ ∀ i l, hwLayers Sample.two_layers !! i = Some l →
      (ALOG Log_needs_scaling ∈ scan_events i l (planned i l)
       ↔ rect_width (displayFrame l) ≠ rect_width (sourceCrop l)
         ∨ rect_height (displayFrame l) ≠ rect_height (sourceCrop l)).
Proof.
  apply (hwc_prepare_scaling_diagnostic Sample.two_layers).
  - cbn. lia.
  - vm_compute. intros H. discriminate H.
Defined.


Lemma single_layer_cycle_witness :
  hwc_prepare Sample.one_layer = (0, Sample.one_layer, [])
  ∧ hwc_set Sample.ioctl_done Sample.swap_fails Sample.channel 0 0
      Sample.one_layer Sample.s0
    = (HWC_EGL_ERROR, Sample.s0, [SwapBuffers 0 0 false])
  ∧ Forall (λ e, is_blit_call e = false ∧ is_access e = false
                 ∧ is_ioctl e = false)
           (composite Sample.ioctl_done Sample.channel 0 0
              Sample.one_layer Sample.s0).2.
Proof.
  apply (single_layer_cycle Sample.ioctl_done Sample.swap_fails Sample.channel
           0 0 Sample.one_layer Sample.s0).
  cbn. lia.
Defined.

Lemma accelerated_blit_skips_software_copy_witness :
  bitblitLayer Sample.ioctl_done Sample.channel Sample.wide_base Sample.inset
    Sample.s0
  = (Sample.s0,
     [entry_log Sample.g_inset;
      ALOG (Log_handles 3 4);
      Ioctl_BITBLIT 7 (blit_params Sample.wide Sample.tile Sample.g_inset) 0])
  ∧ Forall (λ e, is_access e = false)
           (bitblitLayer Sample.ioctl_done Sample.channel Sample.wide_base
              Sample.inset Sample.s0).2.
Proof.
  apply (accelerated_blit_skips_software_copy Sample.ioctl_done Sample.channel
           Sample.wide_base Sample.inset Sample.wide Sample.tile Sample.s0
           eq_refl eq_refl).
  - intros H. discriminate H.
  - reflexivity.
Defined.

Lemma software_copy_byte_correct_witness :
  region_copied Sample.g_inset
    (mem (bitblitLayer Sample.ioctl_fails Sample.channel Sample.wide_base
            Sample.inset Sample.s0).1)
  ∧ ∀ i j, in_region Sample.g_inset i j →
      mem (bitblitLayer Sample.ioctl_fails Sample.channel Sample.wide_base
             Sample.inset Sample.s0).1
          (layerBase Sample.g_inset) (src_index Sample.g_inset i j)
      = Sample.pattern (layerBase Sample.g_inset) (src_index Sample.g_inset i j).
Proof.
  apply (software_copy_byte_correct Sample.ioctl_fails Sample.channel
           Sample.wide_base Sample.inset Sample.wide Sample.tile Sample.s0
           eq_refl eq_refl).
  - right. intros H. discriminate H.
  - unfold is_int. cbn. lia.
  - unfold is_int. cbn. lia.
  - intros i j Hij.
    destruct (in_region_2x2 Sample.g_inset i j eq_refl eq_refl Hij) as [[-> | ->] [-> | ->]];
      by vm_compute.
  - intros i j i' j' Hij Hij' Heq.
    destruct (in_region_2x2 Sample.g_inset i j eq_refl eq_refl Hij) as [[-> | ->] [-> | ->]];
      destruct (in_region_2x2 Sample.g_inset i' j' eq_refl eq_refl Hij')
        as [[-> | ->] [-> | ->]];
      vm_compute in Heq; (by split) || discriminate Heq.
  - intros i j i' j' _ _ [Hb _]. vm_compute in Hb. discriminate Hb.
Defined.

Lemma empty_crop_blit_copies_nothing_witness :
  Forall (λ e, is_access e = false ∧ is_out_of_bounds_log e = false)
         (bitblitLayer Sample.ioctl_fails Sample.no_channel Sample.wide_base
            Sample.empty_crop Sample.s0).2
  ∧ (bitblitLayer Sample.ioctl_fails Sample.no_channel Sample.wide_base
       Sample.empty_crop Sample.s0).1
    = (accelerate Sample.ioctl_fails Sample.no_channel Sample.wide Sample.tile
         Sample.g_empty Sample.s0).1.2
  ∧ (bb_fd Sample.no_channel = 0 →
     (bitblitLayer Sample.ioctl_fails Sample.no_channel Sample.wide_base
        Sample.empty_crop Sample.s0).1 = Sample.s0).
Proof.
  apply (empty_crop_blit_copies_nothing Sample.ioctl_fails Sample.no_channel
           Sample.wide_base Sample.empty_crop Sample.wide Sample.tile Sample.s0
           eq_refl eq_refl).
  left. unfold is_int. cbn. lia.
Defined.

(** ** Further properties of the planner *)

Lemma scans_dec lst : {scans lst} + {¬ scans lst}.
Proof.
  unfold scans.
  destruct (decide (1 < numHwLayers lst)%nat) as [Hn|Hn];
    [|right; by intros [? ?]].
  destruct (decide (Z.land (list_flags lst) HWC_GEOMETRY_CHANGED = 0)) as [Hz|Hz];
    [right; by intros [? ?]|by left].
Defined.

Lemma hwc_prepare_idle lst : ¬ scans lst → (hwc_prepare lst).1 = (0, lst).
Proof.
  unfold scans, hwc_prepare. intros H.
  destruct (1 <? numHwLayers lst)%nat eqn:En; [|done].
  destruct (Z.land (list_flags lst) HWC_GEOMETRY_CHANGED =? 0) eqn:Ez; [done|].
  apply Nat.ltb_lt in En. apply Z.eqb_neq in Ez. by destruct H.
Qed.

Lemma hwc_prepare_list lst :
  (hwc_prepare lst).1 =
  (0, if scans_dec lst
      then {| list_flags := list_flags lst;
              hwLayers := imap planned (hwLayers lst) |}
      else lst).
Proof.
  destruct (scans_dec lst) as [[Hn Hz]|H].
  - by rewrite (hwc_prepare_scan lst Hn Hz).
  - by apply hwc_prepare_idle.
Qed.

Lemma set_compositionType_id l t :
  set_compositionType l t = l ↔ compositionType l = t.
Proof.
  destruct l. cbn. split.
  - intros H. by inversion H.
  - by intros ->.
Qed.

Lemma planned_id i l :
  planned i l = l ↔ ((0 < i)%nat → compositionType l = HWC_OVERLAY).
Proof.
  unfold planned. destruct (0 <? i)%nat eqn:E.
  - apply Nat.ltb_lt in E. rewrite set_compositionType_id. naive_solver.
  - apply Nat.ltb_ge in E. split; [lia|done].
Qed.

Lemma planned_idemp i l : planned i (planned i l) = planned i l.
Proof. unfold planned. by destruct (0 <? i)%nat. Qed.

Lemma planned_same_but_type i l : same_but_type l (planned i l).
Proof. unfold planned, same_but_type. by destruct (0 <? i)%nat. Qed.

Lemma imap_planned_id (ls : list hwc_layer_t) :
  imap planned ls = ls ↔
  ∀ i l, (0 < i)%nat → ls !! i = Some l → compositionType l = HWC_OVERLAY.
Proof.
  split.
  - intros H i l Hi Hl. apply (f_equal (λ k, k !! i)) in H.
    rewrite list_lookup_imap, Hl in H. cbn in H.
    assert (planned i l = l) as Hp by congruence.
    by apply planned_id in Hp.
  - intros H. apply list_eq. intros i. rewrite list_lookup_imap.
    destruct (ls !! i) as [l|] eqn:Hl; [|done]. cbn. f_equal.
    apply planned_id. intros Hi. by apply (H i).
Qed.

(** X1: [hwc_prepare] hands the list back as it took it exactly when it
    does not scan (at most one layer, or geometry-changed clear) or
    every layer after the first is an overlay already. *)
Theorem hwc_prepare_unchanged_iff lst :
  (hwc_prepare lst).1.2 = lst ↔
  (scans lst →
   ∀ i l, (0 < i)%nat → hwLayers lst !! i = Some l →
          compositionType l = HWC_OVERLAY).
Proof.
  rewrite hwc_prepare_list. cbn. destruct (scans_dec lst) as [Hs|Hs].
  - rewrite <- imap_planned_id. destruct lst as [fl ls]. cbn. split.
    + by intros [= H] _.
    + intros H. by rewrite (H Hs).
  - split; [by intros _ ?|done].
Qed.

(** X2: planning is idempotent: [hwc_prepare] run on the list it
    returned returns that list again. *)
Theorem hwc_prepare_idempotent lst :
  (hwc_prepare (hwc_prepare lst).1.2).1.2 = (hwc_prepare lst).1.2.
Proof.
  destruct (scans_dec lst) as [[Hn Hz]|Hs].
  - rewrite (hwc_prepare_scan lst Hn Hz). cbn [fst snd].
    rewrite hwc_prepare_scan; [|by unfold numHwLayers in *; cbn;
                                   rewrite length_imap|done].
    cbn. f_equal. apply imap_planned_id. intros i l Hi.
    rewrite list_lookup_imap.
    destruct (hwLayers lst !! i) as [l0|]; [|done]. cbn. intros [= <-].
    unfold planned. apply Nat.ltb_lt in Hi. by rewrite Hi.
  - rewrite (hwc_prepare_idle lst Hs). cbn. by rewrite (hwc_prepare_idle lst Hs).
Qed.

Lemma hwc_prepare_layers lst :
  Forall2 same_but_type (hwLayers lst) (hwLayers (hwc_prepare lst).1.2).
Proof.
  rewrite hwc_prepare_list. cbn.
  destruct (scans_dec lst) as [Hs|Hs]; cbn.
  - apply Forall2_same_length_lookup_2; [by rewrite length_imap|].
    intros i l l' Hl. rewrite list_lookup_imap, Hl. cbn. intros [= <-].
    apply planned_same_but_type.
  - apply Forall2_same_length_lookup_2; [done|].
    intros i l l' Hl Hl'. assert (l = l') as <- by congruence.
    by unfold same_but_type.
Qed.

(** X3: whatever the list, [hwc_prepare] returns 0, keeps the list
    flags and the number of layers, and changes no field of any layer
    but the composition type. *)
Theorem hwc_prepare_keeps_layers lst :
  (hwc_prepare lst).1.1 = 0
  ∧ list_flags (hwc_prepare lst).1.2 = list_flags lst
  ∧ Forall2 same_but_type (hwLayers lst) (hwLayers (hwc_prepare lst).1.2).
Proof.
  split; [|split; [|apply hwc_prepare_layers]];
    rewrite hwc_prepare_list; cbn; [done|].
  by destruct (scans_dec lst).
Qed.

Lemma validated_scan_events i d l :
  validated (scan_events i d l) = option_list (handle l).
Proof.
  unfold validated, scan_events.
  by destruct (needs_scaling l), (handle l).
Qed.

Lemma validated_join (f : nat → hwc_layer_t → list event) ls :
  (∀ i l, validated (f i l) = option_list (handle l)) →
  validated (mjoin (imap f ls)) = omap handle ls.
Proof.
  revert f. induction ls as [|l ls IH]; intros f Hf; [done|].
  rewrite imap_cons. cbn [mjoin list_join]. unfold validated.
  rewrite omap_app. fold (validated (f 0%nat l)).
  fold (validated (mjoin (imap (f ∘ S) ls))).
  rewrite Hf, IH by (intros i l'; apply Hf).
  cbn. by destruct (handle l).
Qed.

Lemma planned_handle i l : handle (planned i l) = handle l.
Proof. unfold planned. by destruct (0 <? i)%nat. Qed.

(** X4: when it scans, [hwc_prepare] validates the handle of every
    layer that has one, the base layer included, once each and in list
    order; layers without a handle are passed over. *)
Theorem hwc_prepare_validates lst :
  scans lst →
  validated (hwc_prepare lst).2 = omap handle (hwLayers lst).
Proof.
  intros [Hn Hz]. rewrite (hwc_prepare_scan lst Hn Hz). cbn [snd].
  change (validated (ALOG Log_hwc_prepare :: ?es)) with (validated es).
  apply validated_join. intros i l.
  by rewrite validated_scan_events, planned_handle.
Qed.

Lemma hwc_prepare_validates_witness :
  validated (hwc_prepare Sample.three_layers).2
  = [Sample.wide; Sample.tile].
Proof.
  apply (hwc_prepare_validates Sample.three_layers).
  split; [cbn; lia|]. vm_compute. intros H. discriminate H.
Defined.

(** ** Further properties of the blit engine and the executor *)

Section Executor.

Context {X : Type}.
Variable sys_ioctl : Z → xylonbb_params → state X → Z * state X.
Variable eglSwapBuffers : Z → Z → state X → bool * state X.

Lemma blit_calls_none es :
  Forall (λ e, is_blit_call e = false) es → blit_calls es = [].
Proof.
  induction 1 as [|e es He _ IH]; [done|].
  unfold blit_calls in *. destruct e; cbn in *; by rewrite ?IH.
Qed.

Lemma bitblitLayer_blit_calls context l0 l s :
  blit_calls (bitblitLayer sys_ioctl context l0 l s).2 = [].
Proof.
  apply blit_calls_none.
  eapply Forall_impl; [apply bitblitLayer_no_swap|]. by intros e [_ ?].
Qed.

Lemma set_loop_blit_calls n i context l0 ls s :
  (0 < i)%nat → (i + n)%nat = length ls →
  blit_calls (set_loop sys_ioctl n i context l0 ls s).2 = seq i n.
Proof.
  revert i s. induction n as [|n IH]; intros i s Hi Hlen; [done|].
  destruct (lookup_lt_is_Some_2 ls i) as [l Hl]; [lia|].
  cbn [set_loop]. rewrite Hl.
  apply Nat.ltb_lt in Hi as Hi'. rewrite Hi'.
  pose proof (bitblitLayer_blit_calls context l0 l s) as Hb.
  destruct (bitblitLayer sys_ioctl context l0 l s) as [s' es].
  specialize (IH (S i) s').
  destruct (set_loop sys_ioctl n (S i) context l0 ls s') as [s2 es2].
  cbn in *. unfold blit_calls in *. cbn. rewrite omap_app, Hb, IH by lia.
  done.
Qed.

Lemma composite_blit_calls context dpy sur lst s :
  blit_calls (composite sys_ioctl context dpy sur lst s).2
  = seq 1 (numHwLayers lst - 1).
Proof.
  unfold composite, numHwLayers.
  destruct (1 <? length (hwLayers lst))%nat eqn:En.
  - apply Nat.ltb_lt in En.
    destruct (lookup_lt_is_Some_2 (hwLayers lst) 0) as [l0 Hl0]; [lia|].
    rewrite Hl0.
    destruct (length (hwLayers lst)) as [|n] eqn:Hlen; [lia|].
    cbn [set_loop]. rewrite Hl0. cbn.
    pose proof (set_loop_blit_calls n 1 context l0 (hwLayers lst) s) as H.
    destruct (set_loop sys_ioctl n 1 context l0 (hwLayers lst) s) as [s2 es2].
    cbn in *. unfold blit_calls in *. cbn.
    rewrite H by lia. by rewrite Nat.sub_0_r.
  - apply Nat.ltb_ge in En.
    by replace (length (hwLayers lst) - 1)%nat with 0%nat by lia.
Qed.

(** X5: [hwc_set] blits every layer after the first exactly once, in
    ascending index order, and never the first: the calls of
    [bitblitLayer] in its trace are those of the indices
    [1 .. numHwLayers - 1] (none for an empty or one-layer list). *)
Theorem hwc_set_blits_each_layer_once context dpy sur lst s :
  blit_calls (hwc_set sys_ioctl eglSwapBuffers context dpy sur lst s).2
  = seq 1 (numHwLayers lst - 1).
Proof.
  unfold hwc_set.
  pose proof (composite_blit_calls context dpy sur lst s) as Hc.
  destruct (composite sys_ioctl context dpy sur lst s) as [s1 es].
  destruct (eglSwapBuffers dpy sur s1) as [[] s2]; cbn in *;
    unfold blit_calls in *; by rewrite omap_app, Hc, app_nil_r.
Qed.

Lemma set_loop_null_base n i context l0 ls s :
  handle l0 = None →
  (set_loop sys_ioctl n i context l0 ls s).1 = s
  ∧ Forall (λ e, is_access e = false ∧ is_ioctl e = false)
           (set_loop sys_ioctl n i context l0 ls s).2.
Proof.
  intros H0. revert i. induction n as [|n IH]; intros i; [by split|].
  cbn [set_loop]. destruct (ls !! i) as [l|]; [|by split].
  unfold bitblitLayer. rewrite H0.
  destruct (IH (S i)) as [IHs IHe].
  destruct (0 <? i)%nat; cbn;
    destruct (set_loop sys_ioctl n (S i) context l0 ls s) as [s2 es2];
    cbn in *; (split; [done|]); by repeat constructor.
Qed.

(** X6: when the base layer has no buffer handle, a cycle touches no
    pixel and sends no request, however many layers follow: [hwc_set]
    presents the state it was given and returns the status of that
    present operation. *)
Theorem hwc_set_null_base_layer context dpy sur lst l0 s :
  hwLayers lst !! 0%nat = Some l0 →
  handle l0 = None →
  (hwc_set sys_ioctl eglSwapBuffers context dpy sur lst s).1
  = (if (eglSwapBuffers dpy sur s).1 then 0 else HWC_EGL_ERROR,
     (eglSwapBuffers dpy sur s).2)
  ∧ Forall (λ e, is_access e = false ∧ is_ioctl e = false)
           (hwc_set sys_ioctl eglSwapBuffers context dpy sur lst s).2.
Proof.
  intros Hl0 H0. unfold hwc_set, composite. rewrite Hl0.
  destruct (set_loop_null_base (numHwLayers lst) 0 context l0 (hwLayers lst) s H0)
    as [Hs He].
  destruct (set_loop sys_ioctl (numHwLayers lst) 0 context l0 (hwLayers lst) s)
    as [s1 es].
  cbn in Hs, He. subst s1.
  destruct (1 <? numHwLayers lst)%nat;
    destruct (eglSwapBuffers dpy sur s) as [[] s2]; cbn;
    (split; [done|]);
    repeat first [done | constructor | apply Forall_app; split].
Qed.

Lemma bitblitLayer_ext context l0 l0' l l' s :
  same_blit_inputs l0 l0' → same_blit_inputs l l' →
  bitblitLayer sys_ioctl context l0 l s = bitblitLayer sys_ioctl context l0' l' s.
Proof.
  intros (Hh0 & Hc0 & _) (Hh & Hc & Hd).
  unfold bitblitLayer, locals. by rewrite Hh0, Hc0, Hh, Hc, Hd.
Qed.

Lemma set_loop_ext n i context l0 l0' ls ls' s :
  same_blit_inputs l0 l0' →
  Forall2 same_blit_inputs ls ls' →
  (set_loop sys_ioctl n i context l0 ls s).1
  = (set_loop sys_ioctl n i context l0' ls' s).1.
Proof.
  intros H0 Hls. revert i s. induction n as [|n IH]; intros i s; [done|].
  cbn [set_loop]. destruct (ls !! i) as [l|] eqn:Hl.
  - destruct (Forall2_lookup_l _ _ _ _ _ Hls Hl) as (l' & Hl' & Hll).
    rewrite Hl'. rewrite (bitblitLayer_ext context l0 l0' l l' s H0 Hll).
    destruct (0 <? i)%nat.
    + destruct (bitblitLayer sys_ioctl context l0' l' s) as [s' es].
      specialize (IH (S i) s').
      destruct (set_loop sys_ioctl n (S i) context l0 ls s') as [s2 es2].
      by destruct (set_loop sys_ioctl n (S i) context l0' ls' s') as [s3 es3].
    + specialize (IH (S i) s).
      destruct (set_loop sys_ioctl n (S i) context l0 ls s) as [s2 es2].
      by destruct (set_loop sys_ioctl n (S i) context l0' ls' s) as [s3 es3].
  - assert (ls' !! i = None) as ->; [|done].
    apply lookup_ge_None. rewrite <- (Forall2_length _ _ _ Hls).
    by apply lookup_ge_None.
Qed.

Lemma hwc_set_ext context dpy sur lst lst' s :
  Forall2 same_blit_inputs (hwLayers lst) (hwLayers lst') →
  (hwc_set sys_ioctl eglSwapBuffers context dpy sur lst s).1
  = (hwc_set sys_ioctl eglSwapBuffers context dpy sur lst' s).1.
Proof.
  intros Hls.
  assert ((composite sys_ioctl context dpy sur lst s).1
          = (composite sys_ioctl context dpy sur lst' s).1) as Hc.
  { unfold composite, numHwLayers. rewrite <- (Forall2_length _ _ _ Hls).
    destruct (1 <? length (hwLayers lst))%nat; [|done].
    destruct (hwLayers lst !! 0%nat) as [l0|] eqn:Hl0.
    - destruct (Forall2_lookup_l _ _ _ _ _ Hls Hl0) as (l0' & Hl0' & H0).
      rewrite Hl0'.
      pose proof (set_loop_ext (length (hwLayers lst)) 0 context l0 l0'
                    (hwLayers lst) (hwLayers lst') s H0 Hls) as H.
      destruct (set_loop sys_ioctl _ 0 context l0 _ s) as [s1 es1].
      by destruct (set_loop sys_ioctl _ 0 context l0' _ s) as [s2 es2].
    - assert (hwLayers lst' !! 0%nat = None) as ->; [|done].
      apply lookup_ge_None. rewrite <- (Forall2_length _ _ _ Hls).
      by apply lookup_ge_None. }
  unfold hwc_set.
  destruct (composite sys_ioctl context dpy sur lst s) as [s1 es1].
  destruct (composite sys_ioctl context dpy sur lst' s) as [s2 es2].
  cbn in Hc. subst s2.
  by destruct (eglSwapBuffers dpy sur s1) as [[] s3].
Qed.

(** X7: [hwc_set] does not look at composition types: run on the list
    [hwc_prepare] returned it gives the status and the final state
    (pixels included) that it gives on the list as the client built
    it. *)
Theorem hwc_set_ignores_composition_type context dpy sur lst s :
  (hwc_set sys_ioctl eglSwapBuffers context dpy sur (hwc_prepare lst).1.2 s).1
  = (hwc_set sys_ioctl eglSwapBuffers context dpy sur lst s).1.
Proof.
  symmetry. apply hwc_set_ext.
  eapply Forall2_impl; [apply hwc_prepare_layers|].
  intros l l' (_ & _ & Hh & _ & _ & Hc & Hd). by repeat split.
Qed.

End Executor.

(** ** Further properties of the address algebra and of the guards *)

Lemma to_size_t_shift z k :
  0 <= z + k * 2 ^ 32 < 2 ^ 32 → to_size_t z = z + k * 2 ^ 32.
Proof.
  intros H. unfold to_size_t. symmetry.
  apply (Z.mod_unique_pos z (2 ^ 32) (- k)); lia.
Qed.

Lemma dest_index_exact_eq g i j :
  dest_index g i j = to_size_t (dest_index_exact g i j).
Proof. apply dest_index_closed. Qed.

Lemma src_index_exact_eq g i j :
  src_index g i j = to_size_t (src_index_exact g i j).
Proof. apply src_index_closed. Qed.

(** The guard [(idx)*4 > size] on an index expression whose exact value
    is [raw], for sizes that are non-negative [int]s. *)
Lemma guard_exact raw size :
  is_int size → 0 <= size →
  - 2 ^ 29 <= raw < 2 ^ 30 →
  (size_mul (to_size_t raw) 4 >? to_size_t size) = true
  ↔ raw < 0 ∨ size < raw * 4.
Proof.
  unfold is_int, size_mul. intros Hint Hpos Hraw.
  rewrite (to_size_t_small size) by lia.
  rewrite Z.gtb_ltb, Z.ltb_lt.
  destruct (Z.lt_ge_cases raw 0) as [Hneg|Hnn].
  - rewrite (to_size_t_shift raw 1) by lia.
    rewrite (to_size_t_shift ((raw + 1 * 2 ^ 32) * 4) (-3)) by lia. lia.
  - rewrite (to_size_t_small raw) by lia.
    rewrite (to_size_t_small (raw * 4)) by lia. lia.
Qed.

(** X8: the guards read over the integers.  For buffer sizes that are
    non-negative [int]s and index expressions between [-2^29] and
    [2^30], a pixel is refused exactly when its index is negative or
    its byte offset exceeds the size; the offset equal to the size is
    let through. *)
Theorem guards_exact g i j :
  is_int (surfaceSize g) → 0 <= surfaceSize g →
  is_int (layerSize g) → 0 <= layerSize g →
  - 2 ^ 29 <= dest_index_exact g i j < 2 ^ 30 →
  - 2 ^ 29 <= src_index_exact g i j < 2 ^ 30 →
  (dest_out_of_bounds g i j = true
   ↔ dest_index_exact g i j < 0 ∨ surfaceSize g < dest_index_exact g i j * 4)
  ∧ (src_out_of_bounds g i j = true
     ↔ src_index_exact g i j < 0 ∨ layerSize g < src_index_exact g i j * 4).
Proof.
  intros Hsi Hs Hli Hl Hd Hsrc.
  unfold dest_out_of_bounds, src_out_of_bounds.
  rewrite dest_index_exact_eq, src_index_exact_eq.
  split; by apply guard_exact.
Qed.

Lemma guards_exact_witness :
  (dest_out_of_bounds Sample.g_below 0 0 = true
   ↔ dest_index_exact Sample.g_below 0 0 < 0
     ∨ surfaceSize Sample.g_below < dest_index_exact Sample.g_below 0 0 * 4)
  ∧ (src_out_of_bounds Sample.g_below 0 0 = true
     ↔ src_index_exact Sample.g_below 0 0 < 0
       ∨ layerSize Sample.g_below < src_index_exact Sample.g_below 0 0 * 4).
Proof.
  apply (guards_exact Sample.g_below 0 0); vm_compute; intuition discriminate.
Defined.

Lemma int_add_0_r a : to_size_t (int_add a 0) = to_size_t a.
Proof. unfold int_add. by rewrite Z.add_0_r, to_size_t_to_int. Qed.

Lemma int_add_0_l_add a b :
  to_size_t (int_add (int_add 0 a) b) = to_size_t (int_add a b).
Proof.
  unfold int_add. rewrite !to_size_t_to_int, Z.add_0_l.
  rewrite <- (to_size_t_add (to_int a) b), to_size_t_to_int.
  by rewrite to_size_t_add.
Qed.

(** X9: the request sent to the accelerator names the rectangle the
    software loop would copy: its destination and source byte offsets
    are four times the indices of pixel [(0, 0)] (modulo [2 ^ 32]), its
    strides and its column and row counts are those of the loop, and
    its buffers are the descriptors of the two handles. *)
Theorem blit_params_origin surfaceHandle l0 layerHandle l :
  let g := locals surfaceHandle l0 layerHandle l in
  let p := blit_params surfaceHandle layerHandle g in
  dst_offset p = size_mul 4 (dest_index g 0 0)
  ∧ src_offset p = size_mul 4 (src_index g 0 0)
  ∧ dst_stripe p = surfaceStride g ∧ src_stripe p = layerStride g
  ∧ num_columns p = columns g ∧ num_rows p = rows g
  ∧ dst_dma_buf p = hnd_fd surfaceHandle
  ∧ src_dma_buf p = hnd_fd layerHandle.
Proof.
  cbn zeta. repeat split.
  - unfold blit_params, dest_index. cbn [dst_offset].
    by rewrite int_add_0_r, int_add_0_l_add.
  - unfold blit_params, src_index. cbn [src_offset].
    rewrite int_add_0_r. unfold int_add.
    by rewrite Z.add_0_l, to_size_t_to_int.
Qed.

Lemma in_region_exact_bounds g i j :
  in_region g i j → 0 <= surfaceStride g → 0 <= layerStride g →
  dest_index_exact g 0 0 <= dest_index_exact g i j
  ∧ dest_index_exact g i j <= dest_index_exact g (columns g - 1) (rows g - 1)
  ∧ src_index_exact g 0 0 <= src_index_exact g i j
  ∧ src_index_exact g i j <= src_index_exact g (columns g - 1) (rows g - 1).
Proof.
  unfold in_region, dest_index_exact, src_index_exact.
  intros [Hi Hj] Hs Hl. repeat split; nia.
Qed.

Lemma dest_injective_bound g :
  columns g <= surfaceStride g →
  0 <= dest_index_exact g 0 0 →
  dest_index_exact g (columns g - 1) (rows g - 1) < 2 ^ 32 →
  dest_injective g.
Proof.
  intros Hc H0 Hmax i j i' j' Hij Hij'.
  assert (0 <= surfaceStride g) as Hs by (destruct Hij; lia).
  assert (∀ a b, in_region g a b →
            dest_index g a b = dest_index_exact g a b) as Hex.
  { intros a b [Ha Hb]. rewrite dest_index_exact_eq. apply to_size_t_small.
    unfold dest_index_exact in *. split; nia. }
  rewrite (Hex i j Hij), (Hex i' j' Hij').
  destruct Hij as [Hi Hj], Hij' as [Hi' Hj'].
  unfold dest_index_exact. intros Heq.
  assert (j = j') as -> by nia. split; [lia|done].
Qed.

(** X10: for a region no wider than the destination stride whose first
    index is not negative and whose last index is below [2 ^ 32],
    distinct pixels have distinct destination indices. *)
Theorem dest_injective_within_stride g :
  columns g <= surfaceStride g →
  0 <= dest_index_exact g 0 0 →
  dest_index_exact g (columns g - 1) (rows g - 1) < 2 ^ 32 →
  dest_injective g.
Proof. apply dest_injective_bound. Qed.

Lemma dest_injective_within_stride_witness : dest_injective Sample.g_window.
Proof.
  apply (dest_injective_within_stride Sample.g_window); vm_compute; done.
Defined.

Lemma copy_pixels_guarded g vs m :
  Forall (guarded_access g) (copy_pixels g vs m).2.
Proof.
  revert m. induction vs as [|[i j] vs IH]; intros m; [constructor|].
  cbn [copy_pixels]. unfold copy_pixel.
  destruct (dest_out_of_bounds g i j) eqn:Hd; [by repeat constructor|].
  destruct (src_out_of_bounds g i j) eqn:Hs; [by repeat constructor|].
  specialize (IH (store m (surfaceBase g) (dest_index g i j)
                        (m (layerBase g) (src_index g i j)))).
  destruct (copy_pixels g vs _) as [[f m2] es']. cbn in *.
  unfold dest_out_of_bounds in Hd. unfold src_out_of_bounds in Hs.
  rewrite Z.gtb_ltb in Hd, Hs. apply Z.ltb_ge in Hd, Hs.
  by repeat constructor.
Qed.

Section Blit.

Context {X : Type}.
Variable sys_ioctl : Z → xylonbb_params → state X → Z * state X.

(** X11: every pixel access of a blit went through its guard: each
    store goes to the base layer's buffer and each load comes from the
    source layer's buffer, at an index whose byte offset modulo
    [2 ^ 32] is at most the size of that buffer. *)
Theorem blit_accesses_guarded context l0 l surfaceHandle layerHandle s :
  handle l0 = Some surfaceHandle →
  handle l = Some layerHandle →
  Forall (guarded_access (locals surfaceHandle l0 layerHandle l))
         (bitblitLayer sys_ioctl context l0 l s).2.
Proof.
  intros H0 Hl. rewrite (bitblitLayer_unfold sys_ioctl context l0 l _ _ s H0 Hl).
  cbn zeta. rewrite software_copy_scan.
  pose proof (copy_pixels_guarded
                (locals surfaceHandle l0 layerHandle l)
                (visit_order (columns (locals surfaceHandle l0 layerHandle l))
                             (rows (locals surfaceHandle l0 layerHandle l)))
                (mem (accelerate sys_ioctl context surfaceHandle layerHandle
                        (locals surfaceHandle l0 layerHandle l) s).1.2)) as Hc.
  assert (Forall (guarded_access (locals surfaceHandle l0 layerHandle l))
            (accelerate sys_ioctl context surfaceHandle layerHandle
               (locals surfaceHandle l0 layerHandle l) s).2) as Ha.
  { unfold accelerate. destruct (bb_fd context =? 0); [constructor|].
    destruct (sys_ioctl _ _ _) as [status s1]. by repeat constructor. }
  destruct (accelerate _ _ _ _ _ _) as [[[] s1] es1]; cbn in *.
  - by constructor.
  - constructor; [done|]. by apply Forall_app.
Qed.

Lemma software_path_memory context l0 l surfaceHandle layerHandle s :
  handle l0 = Some surfaceHandle →
  handle l = Some layerHandle →
  let g := locals surfaceHandle l0 layerHandle l in
  let a := accelerate sys_ioctl context surfaceHandle layerHandle g s in
  a.1.1 = false →
  ∃ done rest,
    visit_order (columns g) (rows g) = done ++ rest
    ∧ Forall (passes_checks g) done
    ∧ (rest = [] ∨ ∃ v rest', rest = v :: rest' ∧ ¬ passes_checks g v)
    ∧ (bitblitLayer sys_ioctl context l0 l s).1
      = {| mem := foldl (copy_one g) (mem a.1.2) done; env := env a.1.2 |}.
Proof.
  intros H0 Hl g a Hfall.
  rewrite (bitblitLayer_unfold sys_ioctl context l0 l _ _ s H0 Hl).
  fold g. fold a. rewrite Hfall. cbn [fst]. rewrite software_copy_scan.
  destruct (copy_pixels_prefix g (visit_order (columns g) (rows g)) (mem a.1.2))
    as (done & rest & Hvs & Hdone & Hrest).
  exists done, rest. split; [done|]. split; [done|].
  destruct rest as [|v rest'].
  - rewrite Hrest. split; [by left|done].
  - destruct Hrest as [Hv ->]. split; [|done]. right. by exists v, rest'.
Qed.

(** X12: a blit without accelerator channel whose destination offsets
    all lie within the base layer's buffer stores inside that buffer
    only.  The pixels of the base buffer that are not destinations of
    the region, the pixels of a source buffer that is another buffer,
    and the outside world are as before. *)
Theorem blit_changes_only_the_region context l0 l surfaceHandle layerHandle s :
  handle l0 = Some surfaceHandle →
  handle l = Some layerHandle →
  bb_fd context = 0 →
  let g := locals surfaceHandle l0 layerHandle l in
  (∀ i j, in_region g i j → dest_index g i j * 4 < surfaceSize g) →
  let r := bitblitLayer sys_ioctl context l0 l s in
  Forall (store_inside g) r.2
  ∧ env r.1 = env s
  ∧ (∀ k, 0 <= k → k * 4 < surfaceSize g →
       (∀ i j, in_region g i j → k ≠ dest_index g i j) →
       mem r.1 (surfaceBase g) k = mem s (surfaceBase g) k)
  ∧ (layerBase g ≠ surfaceBase g →
     ∀ k, 0 <= k → k * 4 < layerSize g →
       mem r.1 (layerBase g) k = mem s (layerBase g) k).
Proof.
  intros H0 Hl Hfd g Hin r.
  assert (accelerate sys_ioctl context surfaceHandle layerHandle g s
          = (false, s, [])) as Ha.
  { unfold accelerate. by rewrite Hfd. }
  assert (∃ done rest f,
            visit_order (columns g) (rows g) = done ++ rest
            ∧ r = ({| mem := foldl (copy_one g) (mem s) done; env := env s |},
                   entry_log g :: (done ≫= pixel_accesses g) ++ f)
            ∧ Forall (λ e, is_access e = false) f)
    as (done & rest & f & Hvs & Hr & Hf).
  { unfold r. rewrite (bitblitLayer_unfold sys_ioctl context l0 l _ _ s H0 Hl).
    fold g. rewrite Ha. cbn [fst snd app]. rewrite software_copy_scan.
    destruct (copy_pixels_prefix g (visit_order (columns g) (rows g)) (mem s))
      as (done & rest & Hvs & _ & Hrest).
    exists done, rest. destruct rest as [|v rest'].
    - exists []. rewrite Hrest. split; [done|]. split; [|constructor].
      cbn. by rewrite app_nil_r.
    - destruct Hrest as [_ ->]. exists [abort_log g v]. cbn.
      split; [done|]. split; [done|]. constructor; [|constructor].
      unfold abort_log. by destruct (dest_out_of_bounds g v.1 v.2). }
  assert (∀ v, v ∈ done → in_region g v.1 v.2) as Hreg.
  { intros [i j] Hv. apply elem_of_visit_order. rewrite Hvs.
    apply elem_of_app. by left. }
  rewrite Hr. cbn [fst snd mem env]. split; [|split; [done|split]].
  - constructor; [done|]. apply Forall_app. split.
    + apply Forall_forall. intros e He.
      apply list_elem_of_bind in He as (v & He & Hv).
      unfold pixel_accesses in He.
      apply elem_of_cons in He as [->|He]; [done|].
      apply list_elem_of_singleton in He as ->. unfold store_inside.
      pose proof (dest_index_range g v.1 v.2) as Rd.
      specialize (Hin v.1 v.2 (Hreg v Hv)).
      split; [done|]. split; [apply Rd|exact Hin].
    + eapply Forall_impl; [exact Hf|]. intros e He. by destruct e.
  - intros k _ _ Hk. apply foldl_copy_one_frame.
    intros v Hv [_ Heq]. by apply (Hk v.1 v.2 (Hreg v Hv)).
  - intros Hbase k _ _. apply foldl_copy_one_frame.
    intros v Hv [Heq _]. done.
Qed.

(** X13: a request that fails and leaves the state alone is
    transparent: the blit ends in the state in which the same blit ends
    on a context without channel. *)
Theorem failed_request_is_transparent context l0 l s :
  (∀ p, (sys_ioctl (bb_fd context) p s).1 ≠ 0
        ∧ (sys_ioctl (bb_fd context) p s).2 = s) →
  (bitblitLayer sys_ioctl context l0 l s).1
  = (bitblitLayer sys_ioctl {| ctx_fd := ctx_fd context; bb_fd := 0 |} l0 l s).1.
Proof.
  intros Hio.
  destruct (handle l0) as [surfaceHandle|] eqn:H0.
  2: { unfold bitblitLayer. by rewrite H0. }
  destruct (handle l) as [layerHandle|] eqn:Hl.
  2: { unfold bitblitLayer. by rewrite H0, Hl. }
  rewrite !(bitblitLayer_unfold sys_ioctl _ l0 l _ _ s H0 Hl).
  unfold accelerate. cbn [bb_fd].
  destruct (bb_fd context =? 0); [done|].
  destruct (Hio (blit_params surfaceHandle layerHandle
                   (locals surfaceHandle l0 layerHandle l))) as [Hst Hs].
  destruct (sys_ioctl _ _ _) as [status s1]. cbn in *. subst s1.
  apply Z.eqb_neq in Hst. by rewrite Hst.
Qed.

(** X14: the rectangle copy over the integers.  With two handles on
    different buffers, no channel or a failed request, a region no
    wider than the destination stride, first indices that are not
    negative and last indices whose byte offsets are below the sizes,
    the blit leaves at destination index
    [displayLeft + surfaceLeft + i + (j + displayTop + surfaceTop) * surfaceStride]
    the pixel the source held at
    [layerLeft + i + (j + layerTop) * layerStride], for every pixel
    [(i, j)] of the region. *)
Theorem blit_copies_rectangle context l0 l surfaceHandle layerHandle s :
  handle l0 = Some surfaceHandle →
  handle l = Some layerHandle →
  let g := locals surfaceHandle l0 layerHandle l in
  bb_fd context = 0
  ∨ (sys_ioctl (bb_fd context) (blit_params surfaceHandle layerHandle g) s).1
    ≠ 0 →
  hnd_base surfaceHandle ≠ hnd_base layerHandle →
  is_int (hnd_size surfaceHandle) →
  is_int (hnd_size layerHandle) →
  columns g <= surfaceStride g →
  0 <= dest_index_exact g 0 0 →
  dest_index_exact g (columns g - 1) (rows g - 1) * 4 < hnd_size surfaceHandle →
  0 <= src_index_exact g 0 0 →
  src_index_exact g (columns g - 1) (rows g - 1) * 4 < hnd_size layerHandle →
  let s1 := (accelerate sys_ioctl context surfaceHandle layerHandle g s).1.2 in
  let s' := (bitblitLayer sys_ioctl context l0 l s).1 in
  ∀ i j, in_region g i j →
    mem s' (hnd_base surfaceHandle) (dest_index_exact g i j)
    = mem s1 (hnd_base layerHandle) (src_index_exact g i j).
Proof.
  intros H0 Hl g Hfall Hbase Hsi Hli Hc Hd0 Hdmax Hs0 Hsmax s1 s' i j Hij.
  assert (0 <= surfaceStride g ∧ 0 <= layerStride g) as [Hss Hls].
  { split; apply to_size_t_range. }
  unfold is_int in Hsi, Hli.
  assert (∀ a b, in_region g a b →
            dest_index g a b = dest_index_exact g a b
            ∧ src_index g a b = src_index_exact g a b
            ∧ dest_index_exact g a b * 4 < hnd_size surfaceHandle
            ∧ src_index_exact g a b * 4 < hnd_size layerHandle) as Hex.
  { intros a b Hab.
    destruct (in_region_exact_bounds g a b Hab Hss Hls) as (B1 & B2 & B3 & B4).
    rewrite dest_index_exact_eq, src_index_exact_eq.
    rewrite !to_size_t_small by lia. repeat split; lia. }
  assert (Forall (passes_checks g) (visit_order (columns g) (rows g))) as Hpass.
  { apply within_size_passes; [done|done|].
    intros a b Hab. destruct (Hex a b Hab) as (-> & -> & ? & ?). by split. }
  assert (dest_injective g) as Hinj.
  { apply dest_injective_bound; [done|done|lia]. }
  destruct (software_path_memory context l0 l _ _ s H0 Hl)
    as (done & rest & Hvs & _ & Hrest & Hs').
  { by apply accelerate_falls_through. }
  fold g in Hvs, Hrest, Hs'. fold s1 in Hs'.
  assert (rest = []) as ->.
  { destruct Hrest as [->|(v & rest' & -> & Hv)]; [done|].
    exfalso. apply Hv. eapply Forall_forall in Hpass; [exact Hpass|].
    rewrite Hvs. apply elem_of_app. right. by left. }
  rewrite app_nil_r in Hvs. subst done.
  destruct (Hex i j Hij) as (Ed & Es & _ & _).
  unfold s'. rewrite Hs'. cbn [mem]. rewrite <- Ed, <- Es.
  apply (foldl_copy_one_copied g _ (mem s1)) with (v := (i, j)).
  - intros [i1 j1] [i2 j2] H1 H2 Heq.
    apply elem_of_visit_order in H1, H2. cbn in Heq.
    destruct (Hinj i1 j1 i2 j2 H1 H2 Heq). by subst.
  - intros [i1 j1] [i2 j2] _ _ [Hb _]. by apply Hbase.
  - by apply elem_of_visit_order.
Qed.

End Blit.

Section Cycle.

Context {X : Type}.
Variable sys_ioctl : Z → xylonbb_params → state X → Z * state X.
Variable eglSwapBuffers : Z → Z → state X → bool * state X.

Lemma set_loop_foldl n i context l0 ls s :
  (0 < i)%nat → (i + n)%nat = length ls →
  (set_loop sys_ioctl n i context l0 ls s).1
  = foldl (λ s1 l, (bitblitLayer sys_ioctl context l0 l s1).1) s (drop i ls).
Proof.
  revert i s. induction n as [|n IH]; intros i s Hi Hlen.
  - by rewrite drop_ge by lia.
  - destruct (lookup_lt_is_Some_2 ls i) as [l Hl]; [lia|].
    cbn [set_loop]. rewrite Hl, (drop_S ls l i Hl). cbn [foldl].
    apply Nat.ltb_lt in Hi as Hi'. rewrite Hi'.
    destruct (bitblitLayer sys_ioctl context l0 l s) as [s' es].
    specialize (IH (S i) s').
    destruct (set_loop sys_ioctl n (S i) context l0 ls s') as [s2 es2].
    cbn in *. apply IH; lia.
Qed.

(** X17: a cycle is the blits of the layers after the first, taken in
    list order, each with the first layer as its base and each on the
    state its predecessor left, followed by one present operation on
    the state of the last blit, whose outcome is the status. *)
Theorem hwc_set_is_a_fold context dpy sur lst l0 rest s :
  hwLayers lst = l0 :: rest →
  (hwc_set sys_ioctl eglSwapBuffers context dpy sur lst s).1
  = (if (eglSwapBuffers dpy sur
           (foldl (λ s1 l, (bitblitLayer sys_ioctl context l0 l s1).1) s rest)).1
     then 0 else HWC_EGL_ERROR,
     (eglSwapBuffers dpy sur
        (foldl (λ s1 l, (bitblitLayer sys_ioctl context l0 l s1).1) s rest)).2).
Proof.
  intros Hls.
  assert ((composite sys_ioctl context dpy sur lst s).1
          = foldl (λ s1 l, (bitblitLayer sys_ioctl context l0 l s1).1) s rest)
    as Hc.
  { unfold composite, numHwLayers. rewrite Hls.
    destruct rest as [|l1 rest']; [done|].
    change (1 <? length (l0 :: l1 :: rest'))%nat with true.
    change ((l0 :: l1 :: rest') !! 0%nat) with (Some l0).
    change (length (l0 :: l1 :: rest')) with (S (S (length rest'))).
    pose proof (set_loop_foldl (S (length rest')) 1 context l0
                  (l0 :: l1 :: rest') s) as H.
    remember (S (length rest')) as n eqn:Hn.
    cbn [set_loop]. change ((l0 :: l1 :: rest') !! 0%nat) with (Some l0).
    change (0 <? 0)%nat with false. cbv beta iota zeta.
    destruct (set_loop sys_ioctl n 1 context l0 (l0 :: l1 :: rest') s)
      as [s2 es2].
    cbn [fst snd] in *. apply H; [lia|]. subst n. cbn. lia. }
  unfold hwc_set.
  destruct (composite sys_ioctl context dpy sur lst s) as [s1 es].
  cbn in Hc. subst s1.
  by destruct (eglSwapBuffers dpy sur _) as [[] s2].
Qed.

End Cycle.

(** ** Further properties of device open *)

(** X15: [hwc_device_open] returns 0 and a context exactly for the name
    [HWC_HARDWARE_COMPOSER]; for any other name it returns [-EINVAL]
    and no context, does not open the accelerator and leaves the state
    alone. *)
Theorem hwc_device_open_by_name {X : Type}
    (sys_open : state X → Z * state X) name s :
  ((hwc_device_open sys_open name s).1.1.1 = 0
   ↔ name = HWC_HARDWARE_COMPOSER)
  ∧ (is_Some (hwc_device_open sys_open name s).1.1.2
     ↔ name = HWC_HARDWARE_COMPOSER)
  ∧ (name ≠ HWC_HARDWARE_COMPOSER →
     hwc_device_open sys_open name s = (- EINVAL, None, s, [])).
Proof.
  unfold hwc_device_open.
  destruct (String.eqb_spec name HWC_HARDWARE_COMPOSER) as [->|Hne].
  - destruct (sys_open s) as [fd s1]. cbn. split; [done|]. split; [|done].
    split; [done|]. intros _. by eexists.
  - cbn. split; [|split].
    + split; [intros H; discriminate H|done].
    + split; [intros [c Hc]; discriminate Hc|done].
    + done.
Qed.

(** X16: for the composer's name [hwc_device_open] returns 0 whatever
    [open] returned, and the context records that value as it is:
    [bb_fd] is the descriptor, 0 or [-1], so the fast path of
    [bitblitLayer] is armed exactly when [open] returned a value that
    is not 0.  The failure is logged exactly when the value is at most
    0; [open] is called once. *)
Theorem hwc_device_open_records_fd {X : Type}
    (sys_open : state X → Z * state X) s :
  (hwc_device_open sys_open HWC_HARDWARE_COMPOSER s).1
  = (0, Some {| ctx_fd := 0; bb_fd := (sys_open s).1 |}, (sys_open s).2)
  ∧ (ALOG (Log_open_failed (sys_open s).1)
       ∈ (hwc_device_open sys_open HWC_HARDWARE_COMPOSER s).2
     ↔ (sys_open s).1 <= 0)
  ∧ List.filter
      (λ e, match e with Open_xylonbb _ => true | _ => false end)
      (hwc_device_open sys_open HWC_HARDWARE_COMPOSER s).2
    = [Open_xylonbb (sys_open s).1].
Proof.
  unfold hwc_device_open. rewrite String.eqb_refl.
  destruct (sys_open s) as [fd s1]. cbn. split; [|split].
  - destruct (Z.eqb_spec fd 0) as [->|_]; done.
  - destruct (Z.leb_spec fd 0) as [Hle|Hgt].
    + split; [done|]. intros _. apply elem_of_cons. right. by left.
    + rewrite list_elem_of_singleton. split; [done|lia].
  - by destruct (fd <=? 0).
Qed.

(** ** Instances of the further properties *)

Lemma hwc_set_null_base_layer_witness :
  (hwc_set Sample.ioctl_done Sample.swap_done Sample.channel 0 0
     Sample.headless Sample.s0).1 = (0, Sample.s0)
  ∧ Forall (λ e, is_access e = false ∧ is_ioctl e = false)
           (hwc_set Sample.ioctl_done Sample.swap_done Sample.channel 0 0
              Sample.headless Sample.s0).2.
Proof.
  exact (hwc_set_null_base_layer Sample.ioctl_done Sample.swap_done
           Sample.channel 0 0 Sample.headless Sample.no_buffer Sample.s0
           eq_refl eq_refl).
Defined.

Lemma blit_accesses_guarded_witness :
  Forall (guarded_access Sample.g_overhanging)
         (bitblitLayer Sample.ioctl_fails Sample.channel Sample.base_layer
            Sample.overhanging Sample.s0).2.
Proof.
  exact (blit_accesses_guarded Sample.ioctl_fails Sample.channel
           Sample.base_layer Sample.overhanging Sample.surface Sample.tile
           Sample.s0 eq_refl eq_refl).
Defined.

Lemma blit_changes_only_the_region_witness :
  Forall (store_inside Sample.g_inset)
         (bitblitLayer Sample.ioctl_fails Sample.no_channel Sample.wide_base
            Sample.inset Sample.s0).2
  ∧ env (bitblitLayer Sample.ioctl_fails Sample.no_channel Sample.wide_base
           Sample.inset Sample.s0).1 = env Sample.s0
  ∧ (∀ k, 0 <= k → k * 4 < surfaceSize Sample.g_inset →
       (∀ i j, in_region Sample.g_inset i j →
               k ≠ dest_index Sample.g_inset i j) →
       mem (bitblitLayer Sample.ioctl_fails Sample.no_channel Sample.wide_base
              Sample.inset Sample.s0).1 (surfaceBase Sample.g_inset) k
       = mem Sample.s0 (surfaceBase Sample.g_inset) k)
  ∧ (layerBase Sample.g_inset ≠ surfaceBase Sample.g_inset →
     ∀ k, 0 <= k → k * 4 < layerSize Sample.g_inset →
       mem (bitblitLayer Sample.ioctl_fails Sample.no_channel Sample.wide_base
              Sample.inset Sample.s0).1 (layerBase Sample.g_inset) k
       = mem Sample.s0 (layerBase Sample.g_inset) k).
Proof.
  apply (blit_changes_only_the_region Sample.ioctl_fails Sample.no_channel
           Sample.wide_base Sample.inset Sample.wide Sample.tile Sample.s0
           eq_refl eq_refl eq_refl).
  intros i j Hij.
  destruct (in_region_2x2 Sample.g_inset i j eq_refl eq_refl Hij)
    as [[-> | ->] [-> | ->]]; by vm_compute.
Defined.

Lemma failed_request_is_transparent_witness :
  (bitblitLayer Sample.ioctl_fails Sample.channel Sample.wide_base
     Sample.inset Sample.s0).1
  = (bitblitLayer Sample.ioctl_fails Sample.no_channel Sample.wide_base
       Sample.inset Sample.s0).1.
Proof.
  apply (failed_request_is_transparent Sample.ioctl_fails Sample.channel
           Sample.wide_base Sample.inset Sample.s0).
  intros p. split; [intros H; discriminate H|reflexivity].
Defined.

Lemma blit_copies_rectangle_witness :
  in_region Sample.g_window 99 49
  ∧ ∀ i j, in_region Sample.g_window i j →
      mem (bitblitLayer Sample.ioctl_fails Sample.channel Sample.screen_layer
             Sample.window_layer Sample.s0).1
          (hnd_base Sample.screen) (dest_index_exact Sample.g_window i j)
      = Sample.pattern (hnd_base Sample.window)
          (src_index_exact Sample.g_window i j).
Proof.
  split; [by vm_compute|].
  apply (blit_copies_rectangle Sample.ioctl_fails Sample.channel
           Sample.screen_layer Sample.window_layer Sample.screen Sample.window
           Sample.s0 eq_refl eq_refl);
    vm_compute; intuition discriminate.
Defined.

Lemma hwc_set_is_a_fold_witness :
  (hwc_set Sample.ioctl_fails Sample.swap_fails Sample.channel 0 0
     Sample.three_layers Sample.s0).1
  = (HWC_EGL_ERROR,
     (bitblitLayer Sample.ioctl_fails Sample.channel Sample.wide_base
        Sample.no_buffer
        (bitblitLayer Sample.ioctl_fails Sample.channel Sample.wide_base
           Sample.inset Sample.s0).1).1).
Proof.
  exact (hwc_set_is_a_fold Sample.ioctl_fails Sample.swap_fails Sample.channel
           0 0 Sample.three_layers Sample.wide_base
           [Sample.inset; Sample.no_buffer] Sample.s0 eq_refl).
Defined.
